(** * lws-minimal-ws-client-binance: a shallow embedding of [main.c]

    The development follows
    [minimal-examples/ws-client/minimal-ws-client-binance/main.c]:
    the [range_t] accumulators, [pennies], the 1Hz summary [sul_hz_cb],
    the protocol callback [callback_minimal], [connect_client] and the
    service loop of [main].  Library code that the example calls but that
    is not part of the example's file is modelled from the prose
    specification and is marked as such. *)

From Stdlib Require Import ZArith List Ascii String Bool Lia Permutation.
Import ListNotations.
Open Scope Z_scope.

(** ** Machine integers *)

Module Int.

(** [uint64_t]: values are reduced modulo [2^64]. *)
Definition u64 (z : Z) : Z := z mod 2 ^ 64.

(** [int64_t], two's complement. Signed overflow is undefined in C; the
    model wraps, as the usual targets do. *)
Definition s64 (z : Z) : Z := (z + 2 ^ 63) mod 2 ^ 64 - 2 ^ 63.

(** [int], 32 bits, two's complement. *)
Definition s32 (z : Z) : Z := (z + 2 ^ 31) mod 2 ^ 32 - 2 ^ 31.

(** [uint16_t]. *)
Definition u16 (z : Z) : Z := z mod 2 ^ 16.

Definition INT_MAX : Z := 2147483647.

End Int.

(** ** The type [lws_usec_t]

    The [typedef] of [lws_usec_t] lives in the library headers, not in the
    example.  It is a 64-bit integer type; whether it is signed is taken as
    a parameter [usec_signed] of the whole development, so that every
    statement below holds for either choice. *)

Definition usec (usec_signed : bool) (z : Z) : Z :=
  if usec_signed then Int.s64 z else Int.u64 z.

(** A value that an [lws_usec_t] variable can hold. *)
Definition is_usec (usec_signed : bool) (z : Z) : Prop :=
  usec usec_signed z = z.

(** Modelled from the spec: the macros [LWS_US_PER_SEC] and [LWS_US_PER_MS]
    are missing from the example's file; the specification speaks of a
    one-second tick and of milliseconds times 1000. *)
Definition LWS_US_PER_SEC : Z := 1000000.
Definition LWS_US_PER_MS : Z := 1000.

(** ** [range_t] *)

Record range_t : Type := mk_range {
  sum : Z;       (* lws_usec_t *)
  lowest : Z;    (* lws_usec_t *)
  highest : Z;   (* lws_usec_t *)
  samples : Z    (* int *)
}.

(** [range_reset] ignores the previous contents. *)
Definition range_reset (r : range_t) : range_t :=
  {| sum := 0; lowest := 999999999999; highest := 0; samples := 0 |}.

(** The statements at lines 234-240 (latency) and 248-254 (price) of
    [callback_minimal] are the same block applied to two different
    ranges; [range_fold] is that block. *)
Definition range_fold (sg : bool) (r : range_t) (v : Z) : range_t :=
  let lo := if v <? lowest r then v else lowest r in
  let hi := if v >? highest r then v else highest r in
  {| sum := usec sg (sum r + v);
     lowest := lo;
     highest := hi;
     samples := Int.s32 (samples r + 1) |}.

(** Folding a sequence of values, first value first. *)
Definition range_fold_all (sg : bool) (r : range_t) (vs : list Z) : range_t :=
  fold_left (range_fold sg) vs r.

(** Mathematical minimum, maximum and sum of a sequence, with the value for
    the empty sequence given explicitly. *)
Definition list_min (d : Z) (vs : list Z) : Z := fold_left Z.min vs d.
Definition list_max (d : Z) (vs : list Z) : Z := fold_left Z.max vs d.
Definition list_sum (vs : list Z) : Z := fold_left Z.add vs 0.

(** Minimum and maximum of a non-empty sequence. *)
Definition seq_min (vs : list Z) : Z :=
  match vs with [] => 0 | v :: t => list_min v t end.
Definition seq_max (vs : list Z) : Z :=
  match vs with [] => 0 | v :: t => list_max v t end.

(** ** Characters and C strings

    A buffer is a list of characters.  A C string is read up to its first
    NUL character. *)

Definition NUL : ascii := ascii_of_nat 0.
Definition dquote : ascii := ascii_of_nat 34.

Definition chars (s : string) : list ascii := list_ascii_of_string s.

Definition char_code (c : ascii) : Z := Z.of_nat (nat_of_ascii c).

(** [isdigit] of <ctype.h> in the C locale. *)
Definition isdigit (c : ascii) : bool :=
  (48 <=? char_code c) && (char_code c <=? 57).

(** [isspace] of <ctype.h> in the C locale: space, and \t \n \v \f \r. *)
Definition isspace (c : ascii) : bool :=
  (char_code c =? 32) || ((9 <=? char_code c) && (char_code c <=? 13)).

(** The characters of a C string stored in a buffer: up to the first NUL. *)
Fixpoint c_str (b : list ascii) : list ascii :=
  match b with
  | [] => []
  | c :: t => if Ascii.eqb c NUL then [] else c :: c_str t
  end.

(** [s[i]] for a C string: past the last character sits the terminator. *)
Definition char_at (s : list ascii) (i : nat) : ascii := nth i s NUL.

(** [strchr(s, c)] for [c] other than NUL: the string from the first
    occurrence of [c] on, or [None] for the null pointer. *)
Fixpoint strchr (s : list ascii) (c : ascii) : option (list ascii) :=
  match s with
  | [] => None
  | a :: t => if Ascii.eqb a c then Some s else strchr t c
  end.

(** The decimal value of the longest run of digits that starts [s],
    continuing from [acc]. *)
Fixpoint digit_run (acc : Z) (s : list ascii) : Z :=
  match s with
  | [] => acc
  | c :: t => if isdigit c then digit_run (10 * acc + (char_code c - 48)) t
              else acc
  end.

Fixpoint skip_spaces (s : list ascii) : list ascii :=
  match s with
  | [] => []
  | c :: t => if isspace c then skip_spaces t else s
  end.

(** [atoll] of <stdlib.h>: white space, an optional sign, decimal digits.
    The C standard leaves the result undefined when the value does not fit
    a [long long]; [atoll] gives the mathematical value, and
    [atoll_numbuf_bound] below shows that every call of the program stays
    within the defined range. *)
Definition atoll (s : list ascii) : Z :=
  match skip_spaces s with
  | c :: t =>
      if Ascii.eqb c "-"%char then - digit_run 0 t
      else if Ascii.eqb c "+"%char then digit_run 0 t
      else digit_run 0 (c :: t)
  | [] => 0
  end.

(** [pennies]: line 176.  [s[2]] is read only when [s[1]] is a digit, so
    only characters of the string and its terminator are read. *)
Definition pennies (s : list ascii) : Z :=
  let price := Int.u64 (Int.u64 (atoll s) * 100) in
  match strchr s "."%char with
  | Some p =>
      if isdigit (char_at p 1) && isdigit (char_at p 2)
      then Int.u64 (price + (10 * (char_code (char_at p 1) - 48)
                             + (char_code (char_at p 2) - 48)))
      else price
  | None => price
  end.

(** *** The conversion as the specification words it *)

(** The leading integer run: the value of the digits that start the text. *)
Definition leading_integer_run (s : list ascii) : Z := digit_run 0 s.

(** The text after the first decimal point, if there is a point. *)
Fixpoint after_first_point (s : list ascii) : option (list ascii) :=
  match s with
  | [] => None
  | c :: t => if Ascii.eqb c "."%char then Some t else after_first_point t
  end.

(** The fractional contribution: the two-digit value of the two characters
    after the first point when both are digits, zero in every other case. *)
Definition fractional_part (s : list ascii) : Z :=
  match after_first_point s with
  | Some (d1 :: d2 :: _) =>
      if isdigit d1 && isdigit d2
      then 10 * (char_code d1 - 48) + (char_code d2 - 48)
      else 0
  | _ => 0
  end.

Definition to_fixed_point_cents (s : list ascii) : Z :=
  leading_integer_run s * 100 + fractional_part s.

(** A numeric text starts with a digit or with the decimal point. *)
Definition numeric_text (s : list ascii) : Prop :=
  match s with
  | c :: _ => isdigit c = true \/ c = "."%char
  | [] => False
  end.

(** ** Field extraction *)

(** [m] occurs in [buf] as a literal substring. *)
Definition contains (buf m : list ascii) : Prop :=
  exists pre post, buf = pre ++ m ++ post.

Fixpoint is_prefix (m s : list ascii) : bool :=
  match m, s with
  | [], _ => true
  | _ :: _, [] => false
  | a :: m', b :: s' => Ascii.eqb a b && is_prefix m' s'
  end.

(** What follows the first occurrence of [m] in [buf]. *)
Fixpoint after_marker (buf m : list ascii) : option (list ascii) :=
  if is_prefix m buf then Some (skipn (List.length m) buf)
  else match buf with
       | [] => None
       | _ :: t => after_marker t m
       end.

(** The structural delimiters that end a value: comma, closing bracket
    (square or curly), quote. *)
Definition is_delimiter (c : ascii) : bool :=
  Ascii.eqb c ","%char || Ascii.eqb c "]"%char || Ascii.eqb c "}"%char
  || Ascii.eqb c dquote.

Fixpoint run_length (s : list ascii) : nat :=
  match s with
  | [] => O
  | c :: t => if is_delimiter c then O else S (run_length t)
  end.

(** Modelled from the spec: [lws_json_simple_find] is library code that is
    missing from the example's file.  Per the specification's FieldExtractor
    it performs a literal substring search for the marker; on success it
    returns the position just after the marker together with the length of
    the run of bytes up to, not including, the next structural delimiter;
    when the marker is absent it returns not-found (the null pointer). *)
Definition lws_json_simple_find (buf name : list ascii)
  : option (list ascii * nat) :=
  match after_marker buf name with
  | Some p => Some (p, run_length p)
  | None => None
  end.

(** Modelled from the spec: [lws_strnncpy] is a library macro missing from
    the example's file.  It copies [size] characters of [src], truncated to
    what fits a destination of [destsize] bytes with its terminator; the
    result is read back as a C string. *)
Definition lws_strnncpy (src : list ascii) (size destsize : nat) : list ascii :=
  c_str (firstn (Nat.min size (destsize - 1)) src).

Definition numbuf_size : nat := 16.   (* char numbuf[16] *)

Definition marker_depthUpdate : list ascii :=
  dquote :: chars "depthUpdate" ++ [dquote].
Definition marker_E : list ascii :=
  dquote :: chars "E" ++ dquote :: chars ":".
Definition marker_a : list ascii :=
  dquote :: chars "a" ++ dquote :: chars ":[[" ++ [dquote].

(** ** The retry and backoff policy *)

Record lws_retry_bo_t : Type := mk_retry {
  retry_ms_table : list Z;
  retry_ms_table_count : Z;
  conceal_count : Z;
  secs_since_valid_ping : Z;
  secs_since_valid_hangup : Z;
  jitter_percent : Z
}.

Definition backoff_ms : list Z := [1000; 2000; 3000; 4000; 5000].

(** [LWS_ARRAY_SIZE(backoff_ms)] *)
Definition backoff_ms_size : Z := Z.of_nat (List.length backoff_ms).

Definition retry : lws_retry_bo_t :=
  {| retry_ms_table := backoff_ms;
     retry_ms_table_count := backoff_ms_size;
     conceal_count := backoff_ms_size;
     secs_since_valid_ping := 400;
     secs_since_valid_hangup := 400;
     jitter_percent := 0 |}.

Inductive delay_or_giveup : Type :=
| Delay (ms : Z)
| Exhausted.

(** The table index the policy selects: [min(attempt_count, N-1)]. *)
Definition delay_index (bo : lws_retry_bo_t) (attempt_count : Z) : Z :=
  Z.min attempt_count (retry_ms_table_count bo - 1).

Definition table_entry (bo : lws_retry_bo_t) (i : Z) : Z :=
  nth (Z.to_nat i) (retry_ms_table bo) 0.

(** The random spread: nothing unless [jitter_percent > 0], else an amount
    in [[0, jitter_percent% of the delay]] derived from the draw [rnd]. *)
Definition jitter (bo : lws_retry_bo_t) (delay rnd : Z) : Z :=
  if 0 <? jitter_percent bo
  then rnd mod (delay * jitter_percent bo / 100 + 1)
  else 0.

(** Modelled from the spec: the library's retry policy ([next_delay] of the
    specification's BackoffPolicy; in the library it sits behind
    [lws_retry_sul_schedule]) is missing from the example's file.  With
    [N] the table length: when [conceal_count <= N] the policy signals
    exhaustion once [attempt_count >= conceal_count]; when
    [conceal_count > N] it never does.  Otherwise the delay is the table
    entry at [min(attempt_count, N-1)] plus the jitter. *)
Definition next_delay (bo : lws_retry_bo_t) (attempt_count rnd : Z)
  : delay_or_giveup :=
  if (conceal_count bo <=? retry_ms_table_count bo)
     && (conceal_count bo <=? attempt_count)
  then Exhausted
  else
    let d := table_entry bo (delay_index bo attempt_count) in
    Delay (d + jitter bo d rnd).

(** ** The connection object and the process state *)

(** The two callbacks that are ever put on a sorted-usec-list. *)
Inductive sul_cb_t : Type :=
| Cb_connect_client
| Cb_sul_hz_cb.

(** A [lws_sorted_usec_list_t]: either idle, or armed with a callback to
    run once after a delay in microseconds.  Scheduling it again replaces
    what was armed. *)
Definition lws_sorted_usec_list_t : Type := option (sul_cb_t * Z).

Record my_conn : Type := mk_conn {
  sul : lws_sorted_usec_list_t;       (* schedule connection retry *)
  sul_hz : lws_sorted_usec_list_t;    (* 1hz summary *)
  e_lat_range : range_t;
  price_range : range_t;
  wsi : option Z;                     (* related wsi if any *)
  retry_count : Z                     (* uint16_t *)
}.

Inductive log_line : Type :=
| Err_connection_error (msg : option (list ascii))
| Err_no_E_JSON
| Err_attempts_exhausted (func : sul_cb_t + unit)
| User_established
| Notice_price (lo hi avg n : Z)
| Notice_elatency (lo hi avg n : Z)
| User_banner
| Err_init_failed
| User_completed.

(** [__func__] in the two "connection attempts exhausted" messages. *)
Definition in_connect_client : sul_cb_t + unit := inl Cb_connect_client.
Definition in_callback_minimal : sul_cb_t + unit := inr tt.

Record timeval : Type := mk_timeval { tv_sec : Z; tv_usec : Z }.

(** What the program gets from its platform: the signedness of
    [lws_usec_t], the successive answers of [gettimeofday], and the
    successive draws of the library's random source. *)
Record platform : Type := mk_platform {
  usec_signed : bool;
  gettimeofday : nat -> timeval;
  lws_get_random : nat -> Z
}.

(** The statics of the program ([mco], [interrupted]) together with what the
    program has consumed from and produced for its platform. *)
Record world : Type := mk_world {
  mco : my_conn;
  interrupted : Z;
  clock_calls : nat;      (* calls of gettimeofday so far *)
  random_calls : nat;     (* draws of the random source so far *)
  log : list log_line     (* lines logged so far, oldest first *)
}.

Definition set_mco (w : world) (m : my_conn) : world :=
  mk_world m (interrupted w) (clock_calls w) (random_calls w) (log w).
Definition set_interrupted (w : world) (i : Z) : world :=
  mk_world (mco w) i (clock_calls w) (random_calls w) (log w).
Definition lwsl (w : world) (l : log_line) : world :=
  mk_world (mco w) (interrupted w) (clock_calls w) (random_calls w)
           (log w ++ [l]).

Definition set_sul (m : my_conn) (s : lws_sorted_usec_list_t) : my_conn :=
  mk_conn s (sul_hz m) (e_lat_range m) (price_range m) (wsi m) (retry_count m).
Definition set_sul_hz (m : my_conn) (s : lws_sorted_usec_list_t) : my_conn :=
  mk_conn (sul m) s (e_lat_range m) (price_range m) (wsi m) (retry_count m).
Definition set_e_lat_range (m : my_conn) (r : range_t) : my_conn :=
  mk_conn (sul m) (sul_hz m) r (price_range m) (wsi m) (retry_count m).
Definition set_price_range (m : my_conn) (r : range_t) : my_conn :=
  mk_conn (sul m) (sul_hz m) (e_lat_range m) r (wsi m) (retry_count m).
Definition set_wsi (m : my_conn) (h : option Z) : my_conn :=
  mk_conn (sul m) (sul_hz m) (e_lat_range m) (price_range m) h (retry_count m).
Definition set_retry_count (m : my_conn) (c : Z) : my_conn :=
  mk_conn (sul m) (sul_hz m) (e_lat_range m) (price_range m) (wsi m) c.

(** Modelled from the spec: [lws_sul_schedule] is library code missing from
    the example's file; it arms a one-shot event that runs the callback
    after the delay, replacing what the list had armed before. *)
Definition lws_sul_schedule (cb : sul_cb_t) (us : Z) : lws_sorted_usec_list_t :=
  Some (cb, us).

(** Modelled from the spec: [lws_retry_sul_schedule] is library code missing
    from the example's file.  It consults the policy with the current
    attempt count, here always [mco.retry_count]; on a delay it increments
    the count, arms [mco.sul] with the callback after the delay and returns
    0; on exhaustion it returns 1 and arms nothing.  A random draw is taken
    only when the policy has jitter. *)
Definition lws_retry_sul_schedule (P : platform) (bo : lws_retry_bo_t)
    (cb : sul_cb_t) (w : world) : Z * world :=
  let rnd := lws_get_random P (random_calls w) in
  let w1 :=
    if 0 <? jitter_percent bo
    then mk_world (mco w) (interrupted w) (clock_calls w)
                  (S (random_calls w)) (log w)
    else w in
  match next_delay bo (retry_count (mco w)) rnd with
  | Exhausted => (1, w1)
  | Delay ms =>
      let m := set_sul (mco w1) (lws_sul_schedule cb (ms * LWS_US_PER_MS)) in
      (0, set_mco w1 (set_retry_count m (Int.u16 (retry_count m + 1))))
  end.

(** Modelled from the spec: [lws_retry_sul_schedule_retry_wsi] is the same
    operation with the policy taken from the wsi, which is [retry]
    ([i.retry_and_idle_policy] in [connect_client]). *)
Definition lws_retry_sul_schedule_retry_wsi (P : platform) (cb : sul_cb_t)
    (w : world) : Z * world :=
  lws_retry_sul_schedule P retry cb w.

(** [connect_client]: line 90.  [conn] is what
    [lws_client_connect_via_info] returns, the new wsi or the null pointer;
    the library stores it through [i.pwsi]. *)
Definition connect_client (P : platform) (conn : option Z) (w : world) : world :=
  let w := set_mco w (set_wsi (mco w) conn) in
  match conn with
  | Some _ => w
  | None =>
      let '(r, w) := lws_retry_sul_schedule P retry Cb_connect_client w in
      if r =? 0 then w
      else set_interrupted (lwsl w (Err_attempts_exhausted in_connect_client)) 1
  end.

(** [get_us_timeofday]: line 133; the result is a [uint64_t]. *)
Definition get_us_timeofday (P : platform) (w : world) : Z * world :=
  let sg := usec_signed P in
  let tv := gettimeofday P (clock_calls w) in
  (Int.u64 (usec sg (usec sg (usec sg (tv_sec tv) * LWS_US_PER_SEC)
                     + tv_usec tv)),
   mk_world (mco w) (interrupted w) (S (clock_calls w)) (random_calls w)
            (log w)).

(** Division of an [lws_usec_t] by an [int], with C's usual arithmetic
    conversions; [None] when the divisor is zero, where C has no result. *)
Definition usec_div (sg : bool) (a b : Z) : option Z :=
  if b =? 0 then None
  else Some (if sg then Int.s64 (Z.quot a b) else a / Int.u64 b).

(** The summary line of the price range, if it can be computed. *)
Definition price_line (sg : bool) (r : range_t) : option log_line :=
  match usec_div sg (sum r) (samples r) with
  | Some avg =>
      Some (Notice_price (Int.u64 (lowest r)) (Int.u64 (highest r))
                         (Int.u64 avg) (samples r))
  | None => None
  end.

(** The summary line of the latency range, in milliseconds. *)
Definition elatency_line (sg : bool) (r : range_t) : option log_line :=
  match usec_div sg (sum r) (samples r) with
  | Some avg =>
      Some (Notice_elatency (Int.u64 (lowest r) / 1000)
                            (Int.u64 (highest r) / 1000)
                            (Int.u64 avg / 1000) (samples r))
  | None => None
  end.

(** Log the line of a range when its [samples] is non-zero. *)
Definition summary (line : range_t -> option log_line) (r : range_t)
    (w : world) : option world :=
  if samples r =? 0 then Some w
  else match line r with
       | Some l => Some (lwsl w l)
       | None => None
       end.

(** [sul_hz_cb]: line 143.  [None] stands for a run that divides by zero. *)
Definition sul_hz_cb (P : platform) (w : world) : option world :=
  let sg := usec_signed P in
  let w := set_mco w (set_sul_hz (mco w)
                        (lws_sul_schedule Cb_sul_hz_cb LWS_US_PER_SEC)) in
  match summary (price_line sg) (price_range (mco w)) w with
  | None => None
  | Some w =>
      match summary (elatency_line sg) (e_lat_range (mco w)) w with
      | None => None
      | Some w =>
          let w := set_mco w (set_e_lat_range (mco w)
                                (range_reset (e_lat_range (mco w)))) in
          Some (set_mco w (set_price_range (mco w)
                             (range_reset (price_range (mco w)))))
      end
  end.

Inductive lws_callback_reasons : Type :=
| LWS_CALLBACK_CLIENT_CONNECTION_ERROR
| LWS_CALLBACK_CLIENT_RECEIVE
| LWS_CALLBACK_CLIENT_ESTABLISHED
| LWS_CALLBACK_CLIENT_CLOSED
| LWS_CALLBACK_other (code : Z).

(** Modelled from the spec: [lws_callback_http_dummy], the library's default
    handler, is missing from the example's file; for the events of this
    client it reports no error. *)
Definition lws_callback_http_dummy (reason : lws_callback_reasons) : Z := 0.

(** The [do_retry] label of [callback_minimal]: line 276. *)
Definition do_retry (P : platform) (w : world) : Z * world :=
  let '(r, w) := lws_retry_sul_schedule_retry_wsi P Cb_connect_client w in
  if r =? 0 then (0, w)
  else (0, set_interrupted
             (lwsl w (Err_attempts_exhausted in_callback_minimal)) 1).

(** The latency of a message: [now_us - atoll(numbuf) * LWS_US_PER_MS] in
    [lws_usec_t] arithmetic (line 231). *)
Definition latency_of (sg : bool) (now_us : Z) (numbuf : list ascii) : Z :=
  usec sg (now_us - usec sg (usec sg (atoll numbuf) * LWS_US_PER_MS)).

(** The [LWS_CALLBACK_CLIENT_RECEIVE] case: line 207. *)
Definition on_receive (P : platform) (buf : list ascii) (w : world) : world :=
  let sg := usec_signed P in
  let '(now, w) := get_us_timeofday P w in
  let now_us := usec sg now in
  match lws_json_simple_find buf marker_depthUpdate with
  | None => w
  | Some _ =>
      match lws_json_simple_find buf marker_E with
      | None => lwsl w Err_no_E_JSON
      | Some (p, alen) =>
          let numbuf := lws_strnncpy p alen numbuf_size in
          let latency_us := latency_of sg now_us numbuf in
          let w := set_mco w (set_e_lat_range (mco w)
                     (range_fold sg (e_lat_range (mco w)) latency_us)) in
          match lws_json_simple_find buf marker_a with
          | None => w
          | Some (p, alen) =>
              let numbuf := lws_strnncpy p alen numbuf_size in
              let price := usec sg (pennies numbuf) in
              set_mco w (set_price_range (mco w)
                (range_fold sg (price_range (mco w)) price))
          end
      end
  end.

(** [callback_minimal]: line 189.  [inp] is the [in] pointer with its
    length, [None] for the null pointer. *)
Definition callback_minimal (P : platform) (h : Z)
    (reason : lws_callback_reasons) (inp : option (list ascii)) (w : world)
  : Z * world :=
  match reason with
  | LWS_CALLBACK_CLIENT_CONNECTION_ERROR =>
      do_retry P (lwsl w (Err_connection_error inp))
  | LWS_CALLBACK_CLIENT_RECEIVE =>
      (lws_callback_http_dummy reason,
       on_receive P (match inp with Some b => b | None => [] end) w)
  | LWS_CALLBACK_CLIENT_ESTABLISHED =>
      let w := lwsl w User_established in
      let w := set_mco w (set_sul_hz (mco w)
                 (lws_sul_schedule Cb_sul_hz_cb LWS_US_PER_SEC)) in
      let w := set_mco w (set_wsi (mco w) (Some h)) in
      let w := set_mco w (set_e_lat_range (mco w)
                 (range_reset (e_lat_range (mco w)))) in
      let w := set_mco w (set_price_range (mco w)
                 (range_reset (price_range (mco w)))) in
      (lws_callback_http_dummy reason, w)
  | LWS_CALLBACK_CLIENT_CLOSED => do_retry P w
  | LWS_CALLBACK_other _ => (lws_callback_http_dummy reason, w)
  end.

(** ** The service loop *)

(** What one call of [lws_service] can deliver. *)
Inductive event : Type :=
| Ev_sul (conn : option Z)
    (* [mco.sul] expires and runs [connect_client]; [conn] is the outcome of
       the connection attempt *)
| Ev_sul_hz
    (* [mco.sul_hz] expires and runs [sul_hz_cb] *)
| Ev_callback (h : Z) (reason : lws_callback_reasons)
              (inp : option (list ascii))
| Ev_sigint.
    (* SIGINT arrives and runs [sigint_handler] *)

Definition sigint_handler (w : world) : world := set_interrupted w 1.

(** An expiring list entry is taken off its list before its callback runs. *)
Definition dispatch (P : platform) (e : event) (w : world) : option world :=
  match e with
  | Ev_sul conn => Some (connect_client P conn (set_mco w (set_sul (mco w) None)))
  | Ev_sul_hz => sul_hz_cb P (set_mco w (set_sul_hz (mco w) None))
  | Ev_callback h reason inp => Some (snd (callback_minimal P h reason inp w))
  | Ev_sigint => Some (sigint_handler w)
  end.

Fixpoint run_events (P : platform) (es : list event) (w : world)
  : option world :=
  match es with
  | [] => Some w
  | e :: t =>
      match dispatch P e w with
      | Some w' => run_events P t w'
      | None => None
      end
  end.

(** One call of [lws_service]: the events it delivers and the value it
    returns. *)
Record service_round : Type := mk_round {
  events : list event;
  result : Z
}.

Inductive loop_state : Type :=
| Running (n : Z) (w : world)   (* the rounds are used up, the loop goes on *)
| Exited (n : Z) (w : world).   (* the loop condition failed *)

(** [while (n >= 0 && !interrupted) n = lws_service(context, 0);] *)
Fixpoint main_loop (P : platform) (n : Z) (w : world)
    (rounds : list service_round) : option loop_state :=
  if (n >=? 0) && (interrupted w =? 0) then
    match rounds with
    | [] => Some (Running n w)
    | r :: rest =>
        match run_events P (events r) w with
        | Some w' => main_loop P (result r) w' rest
        | None => None
        end
    end
  else Some (Exited n w).

Definition zero_range : range_t := mk_range 0 0 0 0.

(** The statics at program start: all zero. *)
Definition initial_world : world :=
  mk_world (mk_conn None None zero_range zero_range None 0) 0 O O [].

(** The state on entry to the loop of [main], once the context exists:
    the banner is logged and the first connection attempt is scheduled. *)
Definition main_start : world :=
  let w := lwsl initial_world User_banner in
  set_mco w (set_sul (mco w) (lws_sul_schedule Cb_connect_client 1)).

(** [main] from the loop on, for a context that was created. *)
Definition main (P : platform) (rounds : list service_round)
  : option loop_state :=
  main_loop P 0 main_start rounds.

(** ** Vocabulary of the statements *)

(** The largest [long long]. *)
Definition LLONG_MAX : Z := 2 ^ 63 - 1.

(** The empty state of an aggregator. *)
Definition empty_range : range_t :=
  {| sum := 0; lowest := 999999999999; highest := 0; samples := 0 |}.

(** The quotient [sum / samples] as C computes it for a non-zero divisor. *)
Definition mean (sg : bool) (r : range_t) : Z :=
  if sg then Int.s64 (Z.quot (sum r) (samples r))
  else sum r / Int.u64 (samples r).

(** The lines a tick is expected to log for a range: none for a window
    without samples, else the one summary line. *)
Definition report_price (sg : bool) (r : range_t) : list log_line :=
  if samples r =? 0 then []
  else [Notice_price (Int.u64 (lowest r)) (Int.u64 (highest r))
                     (Int.u64 (mean sg r)) (samples r)].

Definition report_elatency (sg : bool) (r : range_t) : list log_line :=
  if samples r =? 0 then []
  else [Notice_elatency (Int.u64 (lowest r) / 1000) (Int.u64 (highest r) / 1000)
                        (Int.u64 (mean sg r) / 1000) (samples r)].

(** Every value of [vs] lies between [lowest] and [highest]. *)
Definition range_bounds (r : range_t) (vs : list Z) : Prop :=
  Forall (fun v => lowest r <= v /\ v <= highest r) vs.

(** The line "connection attempts exhausted" was logged. *)
Definition exhaustion_logged (w : world) : Prop :=
  exists f, In (Err_attempts_exhausted f) (log w).

(** No SIGINT is delivered during the rounds. *)
Definition sigint_free (rounds : list service_round) : Prop :=
  Forall (fun r => ~ In Ev_sigint (events r)) rounds.

(** The events that report a failed or lost connection: a connection
    attempt that fails at once, a connection error, a closed connection. *)
Definition is_failure (e : event) : Prop :=
  match e with
  | Ev_sul None => True
  | Ev_callback _ LWS_CALLBACK_CLIENT_CONNECTION_ERROR _ => True
  | Ev_callback _ LWS_CALLBACK_CLIENT_CLOSED _ => True
  | _ => False
  end.

(** The worlds after each event of a run, in order. *)
Fixpoint run_trace (P : platform) (es : list event) (w : world) : list world :=
  match es with
  | [] => []
  | e :: t =>
      match dispatch P e w with
      | Some w' => w' :: run_trace P t w'
      | None => []
      end
  end.

(** A platform to evaluate the program on: an unsigned [lws_usec_t], a
    clock that stands at 1700000000 s, a random source that draws 0. *)
Definition sample_platform : platform :=
  mk_platform false (fun _ => mk_timeval 1700000000 0) (fun _ => 0).

(** A message text written with apostrophes in place of the double quotes
    of JSON. *)
Definition json (s : string) : list ascii :=
  map (fun c => if Ascii.eqb c "'"%char then dquote else c) (chars s).

(** The world just after a connection was established on a fresh program:
    both ranges are empty. *)
Definition established_world : world :=
  snd (callback_minimal sample_platform 1 LWS_CALLBACK_CLIENT_ESTABLISHED None
         main_start).

(** The events that deliver a received message. *)
Definition is_receive (e : event) : bool :=
  match e with
  | Ev_callback _ LWS_CALLBACK_CLIENT_RECEIVE _ => true
  | _ => false
  end.

Definition count_receive (es : list event) : nat :=
  List.length (filter is_receive es).

(** A text made of decimal digits only. *)
Definition all_digits (s : list ascii) : Prop := forallb isdigit s = true.

(** A clock reading of a running system: seconds below [2^43],
    microseconds below one second. *)
Definition sane_clock (tv : timeval) : Prop :=
  0 <= tv_sec tv < 2 ^ 43 /\ 0 <= tv_usec tv < 1000000.

(** The order of clock readings. *)
Definition timeval_le (a b : timeval) : Prop :=
  tv_sec a < tv_sec b \/ (tv_sec a = tv_sec b /\ tv_usec a <= tv_usec b).

(** * Properties *)

(** ** Machine arithmetic *)

Module IntFacts.
Import Int.

Lemma u64_add_l (a b : Z) : u64 (u64 a + b) = u64 (a + b).
Proof. unfold u64. apply Zplus_mod_idemp_l. Qed.

Lemma s64_add_l (a b : Z) : s64 (s64 a + b) = s64 (a + b).
Proof.
  unfold s64. f_equal.
  replace ((a + 2 ^ 63) mod 2 ^ 64 - 2 ^ 63 + b + 2 ^ 63)
    with ((a + 2 ^ 63) mod 2 ^ 64 + b) by ring.
  rewrite Zplus_mod_idemp_l. f_equal. ring.
Qed.

Lemma s32_add_l (a b : Z) : s32 (s32 a + b) = s32 (a + b).
Proof.
  unfold s32. f_equal.
  replace ((a + 2 ^ 31) mod 2 ^ 32 - 2 ^ 31 + b + 2 ^ 31)
    with ((a + 2 ^ 31) mod 2 ^ 32 + b) by ring.
  rewrite Zplus_mod_idemp_l. f_equal. ring.
Qed.

Lemma s32_small (a : Z) : - 2 ^ 31 <= a <= INT_MAX -> s32 a = a.
Proof.
  unfold s32, INT_MAX. intros H.
  rewrite Z.mod_small; lia.
Qed.

Lemma u64_small (a : Z) : 0 <= a < 2 ^ 64 -> u64 a = a.
Proof. unfold u64. intros H. apply Z.mod_small. exact H. Qed.

Lemma s64_small (a : Z) : - 2 ^ 63 <= a < 2 ^ 63 -> s64 a = a.
Proof. unfold s64. intros H. rewrite Z.mod_small; lia. Qed.

Lemma u64_s64 (a : Z) : u64 (s64 a) = u64 a.
Proof.
  unfold u64, s64.
  rewrite Zminus_mod_idemp_l.
  f_equal. ring.
Qed.

Lemma s64_u64 (a : Z) : s64 (u64 a) = s64 a.
Proof.
  unfold u64, s64. f_equal.
  apply Zplus_mod_idemp_l.
Qed.

Lemma u64_idem (a : Z) : u64 (u64 a) = u64 a.
Proof. unfold u64. apply Z.mod_mod. lia. Qed.

Lemma s64_idem (a : Z) : s64 (s64 a) = s64 a.
Proof. pose proof (s64_add_l a 0) as H. rewrite !Z.add_0_r in H. exact H. Qed.

Lemma s32_idem (a : Z) : s32 (s32 a) = s32 a.
Proof. pose proof (s32_add_l a 0) as H. rewrite !Z.add_0_r in H. exact H. Qed.

End IntFacts.

Lemma usec_add_l (sg : bool) (a b : Z) : usec sg (usec sg a + b) = usec sg (a + b).
Proof.
  destruct sg; simpl; [apply IntFacts.s64_add_l | apply IntFacts.u64_add_l].
Qed.

Lemma usec_idem (sg : bool) (a : Z) : usec sg (usec sg a) = usec sg a.
Proof.
  destruct sg; simpl; [apply IntFacts.s64_idem | apply IntFacts.u64_idem].
Qed.

Lemma usec_small (sg : bool) (a : Z) : 0 <= a < 2 ^ 63 -> usec sg a = a.
Proof.
  intros H. destruct sg; simpl;
    [apply IntFacts.s64_small | apply IntFacts.u64_small]; lia.
Qed.

Lemma usec_u64 (sg : bool) (a : Z) : usec sg (Int.u64 a) = usec sg a.
Proof.
  destruct sg; simpl; [apply IntFacts.s64_u64 | apply IntFacts.u64_idem].
Qed.

(** ** Ranges *)

Section RangeFacts.
Variable sg : bool.

Lemma list_min_le_init (vs : list Z) (d : Z) : list_min d vs <= d.
Proof.
  revert d. induction vs as [|v t IH]; intros d; simpl.
  - unfold list_min; simpl. lia.
  - unfold list_min in *; simpl. specialize (IH (Z.min d v)). lia.
Qed.

Lemma list_max_ge_init (vs : list Z) (d : Z) : d <= list_max d vs.
Proof.
  revert d. induction vs as [|v t IH]; intros d; simpl.
  - unfold list_max; simpl. lia.
  - unfold list_max in *; simpl. specialize (IH (Z.max d v)). lia.
Qed.

Lemma list_min_min (vs : list Z) (a b : Z) :
  list_min (Z.min a b) vs = Z.min a (list_min b vs).
Proof.
  revert a b. induction vs as [|v t IH]; intros a b; unfold list_min in *; simpl.
  - reflexivity.
  - rewrite <- IH. f_equal. lia.
Qed.

Lemma list_max_max (vs : list Z) (a b : Z) :
  list_max (Z.max a b) vs = Z.max a (list_max b vs).
Proof.
  revert a b. induction vs as [|v t IH]; intros a b; unfold list_max in *; simpl.
  - reflexivity.
  - rewrite <- IH. f_equal. lia.
Qed.

Lemma list_sum_from (vs : list Z) (a : Z) : fold_left Z.add vs a = a + list_sum vs.
Proof.
  unfold list_sum. revert a. induction vs as [|v t IH]; intros a; simpl.
  - lia.
  - rewrite IH. rewrite (IH v). lia.
Qed.

Lemma list_min_lower_bound (vs : list Z) (d : Z) :
  Forall (fun v => list_min d vs <= v) vs.
Proof.
  revert d. induction vs as [|v t IH]; intros d; constructor.
  - unfold list_min; simpl. fold (list_min (Z.min d v) t).
    pose proof (list_min_le_init t (Z.min d v)). lia.
  - unfold list_min; simpl. apply IH.
Qed.

Lemma list_max_upper_bound (vs : list Z) (d : Z) :
  Forall (fun v => v <= list_max d vs) vs.
Proof.
  revert d. induction vs as [|v t IH]; intros d; constructor.
  - unfold list_max; simpl. fold (list_max (Z.max d v) t).
    pose proof (list_max_ge_init t (Z.max d v)). lia.
  - unfold list_max; simpl. apply IH.
Qed.

Lemma range_fold_lowest (r : range_t) (v : Z) :
  lowest (range_fold sg r v) = Z.min (lowest r) v.
Proof. unfold range_fold; simpl. destruct (Z.ltb_spec v (lowest r)); lia. Qed.

Lemma range_fold_highest (r : range_t) (v : Z) :
  highest (range_fold sg r v) = Z.max (highest r) v.
Proof.
  unfold range_fold; simpl. rewrite Z.gtb_ltb.
  destruct (Z.ltb_spec (highest r) v); lia.
Qed.

Lemma range_fold_all_lowest (vs : list Z) (r : range_t) :
  lowest (range_fold_all sg r vs) = list_min (lowest r) vs.
Proof.
  revert r. induction vs as [|v t IH]; intros r.
  - reflexivity.
  - unfold range_fold_all, list_min in *; simpl.
    rewrite IH, range_fold_lowest. reflexivity.
Qed.

Lemma range_fold_all_highest (vs : list Z) (r : range_t) :
  highest (range_fold_all sg r vs) = list_max (highest r) vs.
Proof.
  revert r. induction vs as [|v t IH]; intros r.
  - reflexivity.
  - unfold range_fold_all, list_max in *; simpl.
    rewrite IH, range_fold_highest. reflexivity.
Qed.

Lemma list_sum_cons (v : Z) (t : list Z) : list_sum (v :: t) = v + list_sum t.
Proof. unfold list_sum at 1. simpl. apply list_sum_from. Qed.

Lemma range_fold_all_sum (vs : list Z) (r : range_t) :
  usec sg (sum r) = sum r ->
  sum (range_fold_all sg r vs) = usec sg (sum r + list_sum vs).
Proof.
  revert r. induction vs as [|v t IH]; intros r Hr.
  - unfold list_sum; simpl. rewrite Z.add_0_r. symmetry. exact Hr.
  - change (range_fold_all sg r (v :: t))
      with (range_fold_all sg (range_fold sg r v) t).
    rewrite IH.
    + simpl sum. rewrite usec_add_l, list_sum_cons. f_equal. lia.
    + simpl sum. apply usec_idem.
Qed.

Lemma range_fold_all_samples (vs : list Z) (r : range_t) :
  Int.s32 (samples r) = samples r ->
  samples (range_fold_all sg r vs)
  = Int.s32 (samples r + Z.of_nat (List.length vs)).
Proof.
  revert r. induction vs as [|v t IH]; intros r Hr.
  - simpl. rewrite Z.add_0_r. symmetry. exact Hr.
  - change (range_fold_all sg r (v :: t))
      with (range_fold_all sg (range_fold sg r v) t).
    rewrite IH.
    + simpl samples. rewrite IntFacts.s32_add_l. f_equal.
      change (List.length (v :: t)) with (S (List.length t)). lia.
    + simpl samples. apply IntFacts.s32_idem.
Qed.

End RangeFacts.

(** ** The 1Hz summary *)

Lemma summary_price (sg : bool) (r : range_t) (w : world) :
  summary (price_line sg) r w
  = Some (mk_world (mco w) (interrupted w) (clock_calls w) (random_calls w)
                   (log w ++ report_price sg r)).
Proof.
  unfold summary, report_price, price_line, usec_div, mean.
  destruct (samples r =? 0).
  - rewrite app_nil_r. destruct w; reflexivity.
  - reflexivity.
Qed.

Lemma summary_elatency (sg : bool) (r : range_t) (w : world) :
  summary (elatency_line sg) r w
  = Some (mk_world (mco w) (interrupted w) (clock_calls w) (random_calls w)
                   (log w ++ report_elatency sg r)).
Proof.
  unfold summary, report_elatency, elatency_line, usec_div, mean.
  destruct (samples r =? 0).
  - rewrite app_nil_r. destruct w; reflexivity.
  - reflexivity.
Qed.

(** [sul_hz_cb] always completes, and this is the state it leaves. *)
Lemma sul_hz_cb_result (P : platform) (w : world) :
  sul_hz_cb P w
  = Some (mk_world
            (mk_conn (sul (mco w))
                     (Some (Cb_sul_hz_cb, LWS_US_PER_SEC))
                     empty_range empty_range
                     (wsi (mco w)) (retry_count (mco w)))
            (interrupted w) (clock_calls w) (random_calls w)
            (log w ++ report_price (usec_signed P) (price_range (mco w))
                   ++ report_elatency (usec_signed P) (e_lat_range (mco w)))).
Proof.
  unfold sul_hz_cb. rewrite summary_price. cbv zeta.
  rewrite summary_elatency. simpl.
  rewrite <- app_assoc. reflexivity.
Qed.

(** ** Aggregator correctness *)

Lemma seq_min_reset (vs : list Z) :
  vs <> [] -> list_min 999999999999 vs = Z.min 999999999999 (seq_min vs).
Proof.
  destruct vs as [|v t]; [congruence | intros _].
  unfold list_min at 1. simpl. apply list_min_min.
Qed.

Lemma seq_max_reset (vs : list Z) :
  vs <> [] -> list_max 0 vs = Z.max 0 (seq_max vs).
Proof.
  destruct vs as [|v t]; [congruence | intros _].
  unfold list_max at 1. simpl. apply list_max_max.
Qed.

Lemma seq_min_le (vs : list Z) (b : Z) :
  vs <> [] -> Forall (fun v => v <= b) vs -> seq_min vs <= b.
Proof.
  destruct vs as [|v t]; [congruence | intros _ H].
  inversion H; subst. simpl.
  pose proof (list_min_le_init t v). lia.
Qed.

Lemma seq_max_ge (vs : list Z) (b : Z) :
  vs <> [] -> Forall (fun v => b <= v) vs -> b <= seq_max vs.
Proof.
  destruct vs as [|v t]; [congruence | intros _ H].
  inversion H; subst. simpl.
  pose proof (list_max_ge_init t v). lia.
Qed.

(** C1 (as stated, refuted): one value above the sentinel, folded from the
    reset state, leaves [lowest] at the sentinel, which is not the minimum
    of the sequence; this holds for a signed and for an unsigned
    [lws_usec_t]. *)
Lemma lowest_is_not_min_above_sentinel :
  lowest (range_fold_all true (range_reset zero_range) [1000000000000])
    <> seq_min [1000000000000]
  /\ lowest (range_fold_all false (range_reset zero_range) [1000000000000])
    <> seq_min [1000000000000].
Proof. split; vm_compute; discriminate. Qed.

(** C1 (amended): folding a non-empty sequence from the reset state gives
    [lowest = min(999999999999, min(sequence))],
    [highest = max(0, max(sequence))], [sum] the sum of the sequence
    reduced to the 64 bits of [lws_usec_t], and [samples] the length reduced
    to an [int]; so [lowest] is the minimum when no value exceeds the
    sentinel, [highest] is the maximum when no value is negative, and
    [samples] is the length up to [INT_MAX].  The next tick logs [lowest],
    [highest], the quotient [sum / samples] and [samples] of exactly this
    state (in the price line as they are, in the latency line divided by
    1000), and resetting leaves the empty state. *)
Theorem range_fold_all_from_reset (sg : bool) (r0 : range_t) (vs : list Z) :
  vs <> [] ->
  let r := range_fold_all sg (range_reset r0) vs in
  lowest r = Z.min 999999999999 (seq_min vs)
  /\ highest r = Z.max 0 (seq_max vs)
  /\ sum r = usec sg (list_sum vs)
  /\ samples r = Int.s32 (Z.of_nat (List.length vs))
  /\ (Forall (fun v => v <= 999999999999) vs -> lowest r = seq_min vs)
  /\ (Forall (fun v => 0 <= v) vs -> highest r = seq_max vs)
  /\ (Z.of_nat (List.length vs) <= Int.INT_MAX ->
      samples r = Z.of_nat (List.length vs)
      /\ forall (P : platform) (w : world),
           usec_signed P = sg ->
           (price_range (mco w) = r ->
            exists w', sul_hz_cb P w = Some w'
              /\ In (Notice_price (Int.u64 (lowest r)) (Int.u64 (highest r))
                                  (Int.u64 (mean sg r)) (samples r)) (log w')
              /\ price_range (mco w') = empty_range)
           /\ (e_lat_range (mco w) = r ->
            exists w', sul_hz_cb P w = Some w'
              /\ In (Notice_elatency (Int.u64 (lowest r) / 1000)
                                     (Int.u64 (highest r) / 1000)
                                     (Int.u64 (mean sg r) / 1000)
                                     (samples r)) (log w')
              /\ e_lat_range (mco w') = empty_range))
  /\ range_reset r = empty_range.
Proof.
  intros Hne r.
  assert (Hlo : lowest r = Z.min 999999999999 (seq_min vs)).
  { unfold r. rewrite range_fold_all_lowest. simpl lowest.
    apply seq_min_reset, Hne. }
  assert (Hhi : highest r = Z.max 0 (seq_max vs)).
  { unfold r. rewrite range_fold_all_highest. simpl highest.
    apply seq_max_reset, Hne. }
  assert (Hn : samples r = Int.s32 (Z.of_nat (List.length vs))).
  { unfold r. rewrite range_fold_all_samples by reflexivity. reflexivity. }
  split; [exact Hlo|]. split; [exact Hhi|].
  split.
  { unfold r. rewrite range_fold_all_sum.
    - reflexivity.
    - simpl. destruct sg; reflexivity. }
  split; [exact Hn|].
  split.
  { intros Hall. rewrite Hlo. pose proof (seq_min_le vs _ Hne Hall). lia. }
  split.
  { intros Hall. rewrite Hhi. pose proof (seq_max_ge vs _ Hne Hall). lia. }
  split; [|reflexivity].
  intros Hlen.
  assert (Hn' : samples r = Z.of_nat (List.length vs)).
  { rewrite Hn. apply IntFacts.s32_small. lia. }
  split; [exact Hn'|].
  assert (Hnz : (samples r =? 0) = false).
  { apply Z.eqb_neq. rewrite Hn'. destruct vs; [congruence | simpl; lia]. }
  intros P w HP. split; intros Hr.
  - eexists. split; [apply sul_hz_cb_result|]. split; [|reflexivity].
    simpl log. rewrite HP, Hr. unfold report_price. rewrite Hnz.
    apply in_or_app. right. apply in_or_app. left. left. reflexivity.
  - eexists. split; [apply sul_hz_cb_result|]. split; [|reflexivity].
    simpl log. rewrite HP, Hr. unfold report_elatency. rewrite Hnz.
    apply in_or_app. right. apply in_or_app. right. left. reflexivity.
Qed.

(** Witness of [range_fold_all_from_reset]: the three latencies of the
    specification's scenario B. *)
Lemma range_fold_all_from_reset_witness :
  let r := range_fold_all false (range_reset zero_range)
             [100000; 200000; 150000] in
  lowest r = 100000 /\ highest r = 200000 /\ sum r = 450000 /\ samples r = 3.
Proof.
  pose proof (range_fold_all_from_reset false zero_range
                [100000; 200000; 150000]) as H.
  assert (Hne : [100000; 200000; 150000] <> @nil Z) by discriminate.
  specialize (H Hne). cbv zeta in H.
  destruct H as (Hlo & Hhi & Hsum & Hn & _).
  cbv zeta. rewrite Hlo, Hhi, Hsum, Hn.
  repeat split; reflexivity.
Defined.

(** ** The bounds invariant *)

Lemma range_fold_keeps_bounds (sg : bool) (r : range_t) (vs : list Z) (v : Z) :
  range_bounds r vs -> range_bounds (range_fold sg r v) (v :: vs).
Proof.
  unfold range_bounds. intros H.
  rewrite range_fold_lowest, range_fold_highest.
  constructor.
  - lia.
  - eapply Forall_impl; [|exact H]. simpl. intros a Ha. lia.
Qed.

(** C9: the bounds invariant [lowest <= v <= highest] over the folded
    values holds vacuously after every reset, is preserved by every fold,
    and therefore holds for every value folded since the last reset,
    whatever the number of samples. *)
Theorem range_bounds_invariant (sg : bool) :
  (forall r : range_t, range_bounds (range_reset r) [])
  /\ (forall (r : range_t) (vs : list Z) (v : Z),
        range_bounds r vs -> range_bounds (range_fold sg r v) (v :: vs))
  /\ (forall (r0 : range_t) (vs : list Z),
        range_bounds (range_fold_all sg (range_reset r0) vs) vs)
  /\ (forall (r0 : range_t) (vs : list Z) (v : Z),
        In v vs ->
        0 < samples (range_fold_all sg (range_reset r0) vs) ->
        lowest (range_fold_all sg (range_reset r0) vs) <= v
        /\ v <= highest (range_fold_all sg (range_reset r0) vs)).
Proof.
  assert (Hall : forall (r0 : range_t) (vs : list Z),
             range_bounds (range_fold_all sg (range_reset r0) vs) vs).
  { intros r0 vs. unfold range_bounds.
    rewrite range_fold_all_lowest, range_fold_all_highest.
    pose proof (list_min_lower_bound vs (lowest (range_reset r0))) as Hlo.
    pose proof (list_max_upper_bound vs (highest (range_reset r0))) as Hhi.
    rewrite Forall_forall in *. intros v Hv. split; auto. }
  split; [intros r; constructor|].
  split; [intros r vs v; apply range_fold_keeps_bounds|].
  split; [exact Hall|].
  intros r0 vs v Hin _.
  specialize (Hall r0 vs). unfold range_bounds in Hall.
  rewrite Forall_forall in Hall. apply Hall, Hin.
Qed.

(** ** Fixed-point conversion *)

Lemma strchr_point (s : list ascii) :
  strchr s "."%char
  = match after_first_point s with
    | Some t => Some ("."%char :: t)
    | None => None
    end.
Proof.
  induction s as [|c t IH]; simpl.
  - reflexivity.
  - destruct (Ascii.eqb_spec c "."%char) as [->|Hc].
    + reflexivity.
    + exact IH.
Qed.

Lemma digit_not_space_or_sign (c : ascii) :
  isdigit c = true \/ c = "."%char ->
  isspace c = false /\ Ascii.eqb c "-"%char = false
  /\ Ascii.eqb c "+"%char = false.
Proof.
  intros [H | ->]; [|repeat split; reflexivity].
  unfold isdigit in H. apply andb_prop in H. destruct H as [H1 H2].
  apply Z.leb_le in H1. apply Z.leb_le in H2.
  repeat split.
  - unfold isspace.
    destruct (Z.eqb_spec (char_code c) 32); [lia|].
    destruct (Z.leb_spec 9 (char_code c)); [|reflexivity].
    destruct (Z.leb_spec (char_code c) 13); [lia | reflexivity].
  - destruct (Ascii.eqb_spec c "-"%char) as [->|]; [|reflexivity].
    vm_compute in H1. contradiction H1. reflexivity.
  - destruct (Ascii.eqb_spec c "+"%char) as [->|]; [|reflexivity].
    vm_compute in H1. contradiction H1. reflexivity.
Qed.

(** On a numeric text [atoll] reads exactly the leading run of digits. *)
Lemma atoll_numeric_text (s : list ascii) :
  numeric_text s -> atoll s = leading_integer_run s.
Proof.
  destruct s as [|c t]; simpl; [contradiction|].
  intros H. destruct (digit_not_space_or_sign c H) as (Hs & Hm & Hp).
  unfold atoll, leading_integer_run. simpl skip_spaces.
  rewrite Hs, Hm, Hp. reflexivity.
Qed.

Lemma isdigit_NUL : isdigit NUL = false.
Proof. reflexivity. Qed.

(** [pennies] for every C string, in 64-bit arithmetic. *)
Lemma pennies_eq (s : list ascii) :
  pennies s = Int.u64 (atoll s * 100 + fractional_part s).
Proof.
  unfold pennies, fractional_part. rewrite strchr_point.
  assert (Hp : Int.u64 (Int.u64 (atoll s) * 100) = Int.u64 (atoll s * 100)).
  { unfold Int.u64. apply Zmult_mod_idemp_l. }
  destruct (after_first_point s) as [t|].
  - destruct t as [|d1 [|d2 t']]; unfold char_at; simpl nth.
    + rewrite isdigit_NUL. simpl. rewrite Z.add_0_r. exact Hp.
    + rewrite isdigit_NUL, andb_false_r, Z.add_0_r. exact Hp.
    + destruct (isdigit d1 && isdigit d2).
      * rewrite Hp, IntFacts.u64_add_l. reflexivity.
      * rewrite Z.add_0_r. exact Hp.
  - rewrite Z.add_0_r. exact Hp.
Qed.

Lemma digit_run_nonneg (s : list ascii) (acc : Z) :
  0 <= acc -> 0 <= digit_run acc s.
Proof.
  revert acc. induction s as [|c t IH]; intros acc Hacc; cbn [digit_run].
  - exact Hacc.
  - destruct (isdigit c) eqn:Hd; [|exact Hacc].
    apply IH. unfold isdigit in Hd. apply andb_prop in Hd.
    destruct Hd as [H1 _]. apply Z.leb_le in H1. lia.
Qed.

Lemma fractional_part_range (s : list ascii) : 0 <= fractional_part s <= 99.
Proof.
  unfold fractional_part.
  destruct (after_first_point s) as [[|d1 [|d2 t]]|]; try lia.
  destruct (isdigit d1) eqn:H1; cbn [andb]; [|lia].
  destruct (isdigit d2) eqn:H2; [|lia].
  unfold isdigit in H1, H2.
  apply andb_prop in H1. apply andb_prop in H2.
  destruct H1 as [A1 B1]. destruct H2 as [A2 B2].
  apply Z.leb_le in A1, B1, A2, B2. lia.
Qed.

(** C2: on every numeric text whose leading integer fits a [long long],
    [pennies] returns, in 64-bit unsigned arithmetic, the leading integer run
    times 100 plus the fractional contribution (the two-digit value of the
    two characters after the first point when both are digits, zero in every
    other case); the result is that number itself whenever it fits 64 bits.
    In particular [pennies "123.45" = 12345] and [pennies "100" = 10000]. *)
Theorem pennies_is_fixed_point_cents (s : list ascii) :
  numeric_text s ->
  leading_integer_run s <= LLONG_MAX ->
  pennies s = Int.u64 (to_fixed_point_cents s)
  /\ (to_fixed_point_cents s < 2 ^ 64 -> pennies s = to_fixed_point_cents s)
  /\ (after_first_point s = None -> fractional_part s = 0)
  /\ pennies (chars "123.45") = 12345
  /\ pennies (chars "100") = 10000.
Proof.
  intros Hnum _.
  assert (H : pennies s = Int.u64 (to_fixed_point_cents s)).
  { rewrite pennies_eq, (atoll_numeric_text s Hnum). reflexivity. }
  split; [exact H|]. split.
  - intros Hfit. rewrite H. apply IntFacts.u64_small.
    split; [|exact Hfit]. unfold to_fixed_point_cents, leading_integer_run.
    pose proof (digit_run_nonneg s 0 (Z.le_refl 0)).
    pose proof (fractional_part_range s). lia.
  - split.
    + intros Hnone. unfold fractional_part. rewrite Hnone. reflexivity.
    + split; reflexivity.
Qed.

(** Witness of [pennies_is_fixed_point_cents] at the text 123.45. *)
Lemma pennies_is_fixed_point_cents_witness :
  pennies (chars "123.45") = Int.u64 (to_fixed_point_cents (chars "123.45")).
Proof.
  apply (pennies_is_fixed_point_cents (chars "123.45")).
  - simpl. left. reflexivity.
  - vm_compute. discriminate.
Defined.

(** ** The retry policy *)

Lemma next_delay_exhausted_iff (bo : lws_retry_bo_t) (a rnd : Z) :
  next_delay bo a rnd = Exhausted
  <-> conceal_count bo <= retry_ms_table_count bo /\ conceal_count bo <= a.
Proof.
  unfold next_delay.
  destruct (Z.leb_spec (conceal_count bo) (retry_ms_table_count bo));
    destruct (Z.leb_spec (conceal_count bo) a); simpl; split;
    try discriminate; try lia; intros; try reflexivity.
Qed.

Lemma next_delay_retry_delay (k rnd : Z) :
  0 <= k < 5 -> next_delay retry k rnd = Delay (nth (Z.to_nat k) backoff_ms 0).
Proof.
  intros Hk. unfold next_delay, jitter, table_entry, delay_index.
  cbn [retry conceal_count retry_ms_table_count retry_ms_table jitter_percent].
  change backoff_ms_size with 5.
  destruct (Z.leb_spec 5 k); [lia|].
  rewrite Z.min_l by lia. cbn [Z.leb Z.ltb Z.compare andb].
  rewrite Z.add_0_r. reflexivity.
Qed.

Lemma next_delay_retry_exhausted (k rnd : Z) :
  5 <= k -> next_delay retry k rnd = Exhausted.
Proof.
  intros Hk. apply next_delay_exhausted_iff.
  cbn [retry conceal_count retry_ms_table_count].
  change backoff_ms_size with 5. lia.
Qed.

Lemma retry_schedule_delay (P : platform) (cb : sul_cb_t) (w : world) :
  0 <= retry_count (mco w) < 5 ->
  lws_retry_sul_schedule P retry cb w
  = (0, set_mco w
          (mk_conn (Some (cb, nth (Z.to_nat (retry_count (mco w))) backoff_ms 0
                              * LWS_US_PER_MS))
                   (sul_hz (mco w)) (e_lat_range (mco w))
                   (price_range (mco w)) (wsi (mco w))
                   (retry_count (mco w) + 1))).
Proof.
  intros Hk. unfold lws_retry_sul_schedule.
  rewrite next_delay_retry_delay by exact Hk.
  simpl. unfold set_retry_count, set_sul, lws_sul_schedule. simpl.
  unfold Int.u16. rewrite Z.mod_small by lia. reflexivity.
Qed.

Lemma retry_schedule_exhausted (P : platform) (cb : sul_cb_t) (w : world) :
  5 <= retry_count (mco w) ->
  lws_retry_sul_schedule P retry cb w = (1, w).
Proof.
  intros Hk. unfold lws_retry_sul_schedule.
  rewrite next_delay_retry_exhausted by exact Hk. reflexivity.
Qed.

(** What [lws_retry_sul_schedule] leaves alone, and what its result says. *)
Lemma retry_schedule_frame (P : platform) (bo : lws_retry_bo_t)
    (cb : sul_cb_t) (w : world) :
  let '(r, w') := lws_retry_sul_schedule P bo cb w in
  interrupted w' = interrupted w /\ log w' = log w
  /\ clock_calls w' = clock_calls w
  /\ e_lat_range (mco w') = e_lat_range (mco w)
  /\ price_range (mco w') = price_range (mco w)
  /\ (r = 1 /\
      next_delay bo (retry_count (mco w))
                 (lws_get_random P (random_calls w)) = Exhausted
      \/ r = 0 /\
      next_delay bo (retry_count (mco w))
                 (lws_get_random P (random_calls w)) <> Exhausted).
Proof.
  unfold lws_retry_sul_schedule.
  destruct (next_delay bo (retry_count (mco w))
              (lws_get_random P (random_calls w))) eqn:Hd;
    destruct (0 <? jitter_percent bo); simpl;
    repeat split; try reflexivity;
    solve [left; split; reflexivity | right; split; [reflexivity|discriminate]].
Qed.

(** ** What the handlers leave alone *)

Lemma on_receive_frame (P : platform) (buf : list ascii) (w : world) :
  let w' := on_receive P buf w in
  interrupted w' = interrupted w
  /\ clock_calls w' = S (clock_calls w)
  /\ random_calls w' = random_calls w
  /\ sul (mco w') = sul (mco w)
  /\ sul_hz (mco w') = sul_hz (mco w)
  /\ wsi (mco w') = wsi (mco w)
  /\ retry_count (mco w') = retry_count (mco w)
  /\ (log w' = log w \/ log w' = log w ++ [Err_no_E_JSON]).
Proof.
  unfold on_receive, get_us_timeofday.
  destruct (lws_json_simple_find buf marker_depthUpdate) as [d|];
    [|cbn; repeat split; left; reflexivity].
  destruct (lws_json_simple_find buf marker_E) as [[p alen]|];
    [|cbn; repeat split; right; reflexivity].
  destruct (lws_json_simple_find buf marker_a) as [[p' alen']|];
    cbn; repeat split; left; reflexivity.
Qed.

Lemma connect_client_cases (P : platform) (conn : option Z) (w : world) :
  let w' := connect_client P conn w in
  (interrupted w' = interrupted w /\ log w' = log w
   /\ (conn = None ->
       next_delay retry (retry_count (mco w))
                  (lws_get_random P (random_calls w)) <> Exhausted))
  \/ (interrupted w' = 1
      /\ log w' = log w ++ [Err_attempts_exhausted in_connect_client]
      /\ conn = None
      /\ next_delay retry (retry_count (mco w))
                    (lws_get_random P (random_calls w)) = Exhausted).
Proof.
  unfold connect_client. destruct conn as [h|].
  - left. cbn. repeat split. discriminate.
  - pose proof (retry_schedule_frame P retry Cb_connect_client
                  (set_mco w (set_wsi (mco w) None))) as F.
    destruct (lws_retry_sul_schedule P retry Cb_connect_client
                (set_mco w (set_wsi (mco w) None))) as [r w1].
    destruct F as (Fi & Fl & _ & _ & _ & [[-> Fd] | [-> Fd]]); cbn in *.
    + right. rewrite Fl. repeat split. exact Fd.
    + left. repeat split; try assumption. intros _. exact Fd.
Qed.

Lemma do_retry_cases (P : platform) (w : world) :
  let w' := snd (do_retry P w) in
  fst (do_retry P w) = 0
  /\ clock_calls w' = clock_calls w
  /\ e_lat_range (mco w') = e_lat_range (mco w)
  /\ price_range (mco w') = price_range (mco w)
  /\ ((interrupted w' = interrupted w /\ log w' = log w
       /\ next_delay retry (retry_count (mco w))
                     (lws_get_random P (random_calls w)) <> Exhausted)
      \/ (interrupted w' = 1
          /\ log w' = log w ++ [Err_attempts_exhausted in_callback_minimal]
          /\ next_delay retry (retry_count (mco w))
                        (lws_get_random P (random_calls w)) = Exhausted)).
Proof.
  unfold do_retry, lws_retry_sul_schedule_retry_wsi.
  pose proof (retry_schedule_frame P retry Cb_connect_client w) as F.
  destruct (lws_retry_sul_schedule P retry Cb_connect_client w) as [r w1].
  destruct F as (Fi & Fl & Fc & Fe & Fp & [[-> Fd] | [-> Fd]]); cbn in *.
  - rewrite Fl. repeat split; try assumption. right. repeat split. exact Fd.
  - repeat split; try assumption. left. repeat split; assumption.
Qed.

(** Any event but SIGINT either keeps [interrupted] and only appends to the
    log, or sets [interrupted] to 1 and logs the exhaustion. *)
Lemma dispatch_cases (P : platform) (e : event) (w : world) :
  e <> Ev_sigint ->
  exists w', dispatch P e w = Some w'
    /\ ((interrupted w' = interrupted w /\ exists l, log w' = log w ++ l)
        \/ (interrupted w' = 1 /\ exhaustion_logged w')).
Proof.
  intros He. destruct e as [conn| |h reason inp|]; [| | |congruence].
  - eexists. split; [reflexivity|].
    destruct (connect_client_cases P conn (set_mco w (set_sul (mco w) None)))
      as [(Hi & Hl & _) | (Hi & Hl & _)]; cbn in Hi, Hl.
    + left. split; [exact Hi|]. exists []. rewrite app_nil_r. exact Hl.
    + right. split; [exact Hi|]. exists in_connect_client.
      rewrite Hl. apply in_or_app. right. left. reflexivity.
  - eexists. split; [apply sul_hz_cb_result|]. left. cbn.
    split; [reflexivity|]. eexists. reflexivity.
  - eexists. split; [reflexivity|]. destruct reason; cbn [callback_minimal].
    + destruct (do_retry_cases P (lwsl w (Err_connection_error inp)))
        as (_ & _ & _ & _ & [(Hi & Hl & _) | (Hi & Hl & _)]); cbn in Hi, Hl.
      * left. split; [exact Hi|]. eexists. exact Hl.
      * right. split; [exact Hi|]. exists in_callback_minimal.
        rewrite Hl. apply in_or_app. right. left. reflexivity.
    + cbn [snd].
      destruct (on_receive_frame P (match inp with Some b => b | None => [] end) w)
        as (Hi & _ & _ & _ & _ & _ & _ & [Hl | Hl]).
      * left. split; [exact Hi|]. exists []. rewrite app_nil_r. exact Hl.
      * left. split; [exact Hi|]. eexists. exact Hl.
    + left. cbn. split; [reflexivity|]. eexists. reflexivity.
    + destruct (do_retry_cases P w)
        as (_ & _ & _ & _ & [(Hi & Hl & _) | (Hi & Hl & _)]).
      * left. split; [exact Hi|]. exists []. rewrite app_nil_r. exact Hl.
      * right. split; [exact Hi|]. exists in_callback_minimal.
        rewrite Hl. apply in_or_app. right. left. reflexivity.
    + left. cbn. split; [reflexivity|]. exists []. rewrite app_nil_r. reflexivity.
Qed.

(** ** The service loop *)

Lemma dispatch_total (P : platform) (e : event) (w : world) :
  exists w', dispatch P e w = Some w'.
Proof.
  destruct e as [conn| |h reason inp|]; cbn [dispatch];
    try (eexists; reflexivity).
  eexists. apply sul_hz_cb_result.
Qed.

Lemma run_events_total (P : platform) (es : list event) (w : world) :
  exists w', run_events P es w = Some w'.
Proof.
  revert w. induction es as [|e t IH]; intros w; cbn [run_events].
  - eexists. reflexivity.
  - destruct (dispatch_total P e w) as [w1 ->]. apply IH.
Qed.

Lemma main_loop_total (P : platform) (rounds : list service_round)
    (n : Z) (w : world) :
  exists st, main_loop P n w rounds = Some st.
Proof.
  revert n w. induction rounds as [|r rest IH]; intros n w; cbn [main_loop];
    destruct ((n >=? 0) && (interrupted w =? 0)); try (eexists; reflexivity).
  destruct (run_events_total P (events r) w) as [w1 ->]. apply IH.
Qed.

(** Without SIGINT, a run of events keeps: [interrupted] is 0, or it is 1
    and the exhaustion was logged. *)
Lemma run_events_stop_reason (P : platform) (es : list event) (w w' : world) :
  ~ In Ev_sigint es ->
  interrupted w = 0 \/ (interrupted w = 1 /\ exhaustion_logged w) ->
  run_events P es w = Some w' ->
  interrupted w' = 0 \/ (interrupted w' = 1 /\ exhaustion_logged w').
Proof.
  revert w. induction es as [|e t IH]; intros w Hns Hw; cbn [run_events].
  - intros [= <-]. exact Hw.
  - assert (He : e <> Ev_sigint) by (intros ->; apply Hns; left; reflexivity).
    destruct (dispatch_cases P e w He) as (w1 & -> & Hc).
    apply IH.
    + intros Hin. apply Hns. right. exact Hin.
    + destruct Hc as [(Hi & l & Hl) | Hc]; [|right; exact Hc].
      destruct Hw as [Hw | (Hw & f & Hf)].
      * left. congruence.
      * right. split; [congruence|]. exists f. rewrite Hl.
        apply in_or_app. left. exact Hf.
Qed.

Lemma main_loop_exit (P : platform) (rounds : list service_round)
    (n n' : Z) (w w' : world) :
  main_loop P n w rounds = Some (Exited n' w') ->
  n' < 0 \/ interrupted w' <> 0.
Proof.
  revert n w. induction rounds as [|r rest IH]; intros n w; cbn [main_loop];
    destruct (Z.geb_spec n 0) as [Hn|Hn];
    destruct (Z.eqb_spec (interrupted w) 0) as [Hi|Hi]; cbn [andb];
    try discriminate;
    try (intros [= <- <-]; solve [left; lia | right; exact Hi]).
  destruct (run_events P (events r) w) as [w1|]; [apply IH | discriminate].
Qed.

Lemma main_loop_stop_reason (P : platform) (rounds : list service_round)
    (n n' : Z) (w w' : world) :
  sigint_free rounds ->
  interrupted w = 0 \/ (interrupted w = 1 /\ exhaustion_logged w) ->
  main_loop P n w rounds = Some (Exited n' w') ->
  interrupted w' = 0 \/ (interrupted w' = 1 /\ exhaustion_logged w').
Proof.
  revert n w. induction rounds as [|r rest IH]; intros n w Hsf Hw;
    cbn [main_loop];
    destruct ((n >=? 0) && (interrupted w =? 0));
    try discriminate; try (intros [= <- <-]; exact Hw).
  inversion Hsf as [|r' rest' Hr Hrest]; subst.
  destruct (run_events P (events r) w) as [w1|] eqn:Hrun; [|discriminate].
  apply IH; [exact Hrest|].
  eapply run_events_stop_reason; eassumption.
Qed.

(** C3 (as stated, refuted): one round in which [lws_service] returns a
    negative value ends the loop of [main] with no SIGINT delivered and
    [interrupted] still 0, so exhaustion is not the only condition that
    ends the loop. *)
Lemma loop_exit_without_exhaustion :
  ~ (forall (P : platform) (rounds : list service_round) (n : Z) (w : world),
        sigint_free rounds ->
        main P rounds = Some (Exited n w) ->
        interrupted w = 1).
Proof.
  intros H.
  specialize (H sample_platform [mk_round [] (-1)] (-1) main_start).
  assert (Hsf : sigint_free [mk_round [] (-1)]).
  { constructor; [|constructor]. simpl. intros []. }
  specialize (H Hsf eq_refl). discriminate H.
Qed.

(** C3 (amended): with [conceal_count <= N] the policy signals exhaustion
    if and only if [attempt_count >= conceal_count], and with
    [conceal_count > N] it never does.  When the policy signals exhaustion,
    [connect_client] and the retry path of [callback_minimal] set
    [interrupted] to 1 (and leave it alone otherwise).  The loop of [main]
    ends exactly when [interrupted] is set or [lws_service] returns a
    negative value; without SIGINT, [interrupted] is set only by
    exhaustion, and once it is set the loop ends at its next test. *)
Theorem exhaustion_and_loop_exit :
  (forall (bo : lws_retry_bo_t) (a rnd : Z),
      conceal_count bo <= retry_ms_table_count bo ->
      (next_delay bo a rnd = Exhausted <-> conceal_count bo <= a))
  /\ (forall (bo : lws_retry_bo_t) (a rnd : Z),
      retry_ms_table_count bo < conceal_count bo ->
      next_delay bo a rnd <> Exhausted)
  /\ (forall (P : platform) (w : world) (h : Z) (inp : option (list ascii)),
      let verdict := next_delay retry (retry_count (mco w))
                       (lws_get_random P (random_calls w)) in
      let failed :=
        [connect_client P None w;
         snd (callback_minimal P h LWS_CALLBACK_CLIENT_CONNECTION_ERROR inp w);
         snd (callback_minimal P h LWS_CALLBACK_CLIENT_CLOSED inp w)] in
      (verdict = Exhausted ->
       Forall (fun w' => interrupted w' = 1 /\ exhaustion_logged w') failed)
      /\ (verdict <> Exhausted ->
       Forall (fun w' => interrupted w' = interrupted w) failed))
  /\ (forall (P : platform) (rounds : list service_round),
      exists st, main P rounds = Some st)
  /\ (forall (P : platform) (rounds : list service_round) (n : Z) (w : world),
      main P rounds = Some (Exited n w) ->
      n < 0 \/ interrupted w <> 0)
  /\ (forall (P : platform) (rounds : list service_round) (n : Z) (w : world),
      sigint_free rounds ->
      main P rounds = Some (Exited n w) ->
      n < 0 \/ (interrupted w = 1 /\ exhaustion_logged w))
  /\ (forall (P : platform) (rounds : list service_round) (n : Z) (w : world),
      interrupted w = 1 ->
      main_loop P n w rounds = Some (Exited n w)).
Proof.
  split.
  { intros bo a rnd HN. rewrite next_delay_exhausted_iff. tauto. }
  split.
  { intros bo a rnd HN H. apply next_delay_exhausted_iff in H. lia. }
  split.
  { intros P w h inp verdict failed.
    pose proof (connect_client_cases P None w) as Hc.
    pose proof (do_retry_cases P (lwsl w (Err_connection_error inp))) as He.
    pose proof (do_retry_cases P w) as Hd.
    cbn zeta in Hc, He, Hd.
    destruct He as (_ & _ & _ & _ & He). destruct Hd as (_ & _ & _ & _ & Hd).
    cbn [lwsl mco random_calls interrupted] in He.
    fold verdict in Hc, He, Hd.
    assert (L : forall (w' : world) (f : sul_cb_t + unit),
               log w' = log w ++ [Err_attempts_exhausted f] ->
               exhaustion_logged w').
    { intros w' f Hl. exists f. rewrite Hl. apply in_or_app.
      right. left. reflexivity. }
    assert (L' : forall (w' : world) (f : sul_cb_t + unit) l,
               log w' = (log w ++ l) ++ [Err_attempts_exhausted f] ->
               exhaustion_logged w').
    { intros w' f l Hl. exists f. rewrite Hl. apply in_or_app.
      right. left. reflexivity. }
    split; intros Hv; unfold failed; cbn [callback_minimal];
      repeat constructor.
    - destruct Hc as [(_ & _ & Hc) | (Hc & _)]; [|exact Hc].
      exfalso. apply Hc; [reflexivity | exact Hv].
    - destruct Hc as [(_ & _ & Hc) | (_ & Hc & _)]; [|eapply L; exact Hc].
      exfalso. apply Hc; [reflexivity | exact Hv].
    - destruct He as [(_ & _ & He) | (He & _)]; [|exact He].
      exfalso. apply He. exact Hv.
    - destruct He as [(_ & _ & He) | (_ & He & _)]; [|eapply L'; exact He].
      exfalso. apply He. exact Hv.
    - destruct Hd as [(_ & _ & Hd) | (Hd & _)]; [|exact Hd].
      exfalso. apply Hd. exact Hv.
    - destruct Hd as [(_ & _ & Hd) | (_ & Hd & _)]; [|eapply L; exact Hd].
      exfalso. apply Hd. exact Hv.
    - destruct Hc as [(Hc & _) | (_ & _ & _ & Hc)]; [exact Hc|].
      contradiction.
    - destruct He as [(He & _) | (_ & _ & He)]; [exact He|]. contradiction.
    - destruct Hd as [(Hd & _) | (_ & _ & Hd)]; [exact Hd|]. contradiction. }
  split.
  { intros P rounds. apply main_loop_total. }
  split.
  { intros P rounds n w. apply main_loop_exit. }
  split.
  { intros P rounds n w Hsf Hm.
    pose proof (main_loop_exit _ _ _ _ _ _ Hm) as [Hn | Hi]; [left; exact Hn|].
    right.
    assert (H0 : interrupted main_start = 0
                 \/ (interrupted main_start = 1 /\ exhaustion_logged main_start))
      by (left; reflexivity).
    destruct (main_loop_stop_reason _ _ _ _ _ _ Hsf H0 Hm) as [Hz | Hx].
    - contradiction.
    - exact Hx. }
  intros P rounds n w Hi. destruct rounds; cbn [main_loop];
    rewrite Hi; cbn; rewrite andb_false_r; reflexivity.
Qed.

(** ** Backoff schedule *)

Lemma failure_step_delay (P : platform) (e : event) (w : world) :
  is_failure e ->
  0 <= retry_count (mco w) < 5 ->
  exists w', dispatch P e w = Some w'
    /\ sul (mco w')
       = Some (Cb_connect_client,
               nth (Z.to_nat (retry_count (mco w))) backoff_ms 0 * LWS_US_PER_MS)
    /\ retry_count (mco w') = retry_count (mco w) + 1
    /\ interrupted w' = interrupted w.
Proof.
  intros He Hk.
  destruct e as [[c|]| |h [| | | |code] inp|]; try contradiction;
    unfold dispatch, callback_minimal, connect_client, do_retry,
      lws_retry_sul_schedule_retry_wsi.
  - rewrite retry_schedule_delay by (cbn; exact Hk).
    eexists. split; [reflexivity|]. cbn. repeat split.
  - rewrite retry_schedule_delay by (cbn; exact Hk).
    eexists. split; [reflexivity|]. cbn. repeat split.
  - rewrite retry_schedule_delay by (cbn; exact Hk).
    eexists. split; [reflexivity|]. cbn. repeat split.
Qed.

Lemma failure_step_exhausted (P : platform) (e : event) (w : world) :
  is_failure e ->
  5 <= retry_count (mco w) ->
  exists w', dispatch P e w = Some w'
    /\ interrupted w' = 1
    /\ exhaustion_logged w'
    /\ retry_count (mco w') = retry_count (mco w).
Proof.
  intros He Hk.
  destruct e as [[c|]| |h [| | | |code] inp|]; try contradiction;
    unfold dispatch, callback_minimal, connect_client, do_retry,
      lws_retry_sul_schedule_retry_wsi.
  - rewrite retry_schedule_exhausted by (cbn; exact Hk).
    eexists. split; [reflexivity|]. cbn. repeat split.
    exists in_connect_client. apply in_or_app. right. left. reflexivity.
  - rewrite retry_schedule_exhausted by (cbn; exact Hk).
    eexists. split; [reflexivity|]. cbn. repeat split.
    exists in_callback_minimal. apply in_or_app. right. left. reflexivity.
  - rewrite retry_schedule_exhausted by (cbn; exact Hk).
    eexists. split; [reflexivity|]. cbn. repeat split.
    exists in_callback_minimal. apply in_or_app. right. left. reflexivity.
Qed.

(** Six failures in a row, starting from a retry count of 0. *)
Lemma six_failures (P : platform) (w : world) (e1 e2 e3 e4 e5 e6 : event) :
  Forall is_failure [e1; e2; e3; e4; e5; e6] ->
  retry_count (mco w) = 0 ->
  exists w1 w2 w3 w4 w5 w6,
    run_trace P [e1; e2; e3; e4; e5; e6] w = [w1; w2; w3; w4; w5; w6]
    /\ map (fun x => sul (mco x)) [w1; w2; w3; w4; w5]
       = map (fun ms => Some (Cb_connect_client, ms * LWS_US_PER_MS)) backoff_ms
    /\ map interrupted [w1; w2; w3; w4; w5]
       = map (fun _ => interrupted w) backoff_ms
    /\ interrupted w6 = 1
    /\ exhaustion_logged w6.
Proof.
  intros HF H0.
  repeat match goal with
         | H : Forall _ (_ :: _) |- _ => inversion H; clear H; subst
         end.
  destruct (failure_step_delay P e1 w) as (w1 & D1 & S1 & R1 & I1);
    [assumption | lia |].
  rewrite H0 in S1, R1.
  destruct (failure_step_delay P e2 w1) as (w2 & D2 & S2 & R2 & I2);
    [assumption | lia |].
  rewrite R1 in S2, R2.
  destruct (failure_step_delay P e3 w2) as (w3 & D3 & S3 & R3 & I3);
    [assumption | lia |].
  rewrite R2 in S3, R3.
  destruct (failure_step_delay P e4 w3) as (w4 & D4 & S4 & R4 & I4);
    [assumption | lia |].
  rewrite R3 in S4, R4.
  destruct (failure_step_delay P e5 w4) as (w5 & D5 & S5 & R5 & I5);
    [assumption | lia |].
  rewrite R4 in S5, R5.
  destruct (failure_step_exhausted P e6 w5) as (w6 & D6 & I6 & X6 & _);
    [assumption | lia |].
  exists w1, w2, w3, w4, w5, w6.
  split.
  { cbn [run_trace]. rewrite D1, D2, D3, D4, D5, D6. reflexivity. }
  split.
  { cbn [map]. rewrite S1, S2, S3, S4, S5. reflexivity. }
  split.
  { cbn [map backoff_ms]. rewrite I5, I4, I3, I2, I1. reflexivity. }
  split; assumption.
Qed.

(** C4: whenever the policy answers with a delay, it is the table entry at
    index [min(attempt_count, N-1)] plus a jitter between 0 and
    [jitter_percent]% of that entry, so with [jitter_percent = 0] and
    [attempt_count] in [[0, N)] it is [table[attempt_count]] exactly.  With
    the configured policy ([backoff_ms] of 5 entries, [conceal_count = 5],
    no jitter) six failures in a row from a retry count of 0 arm the retry
    with 1000, 2000, 3000, 4000 and 5000 ms, leaving [interrupted] alone,
    and the sixth signals exhaustion and sets [interrupted]. *)
Theorem backoff_schedule :
  (forall (bo : lws_retry_bo_t) (a rnd : Z),
      0 <= a ->
      next_delay bo a rnd <> Exhausted ->
      delay_index bo a = Z.min a (retry_ms_table_count bo - 1)
      /\ exists j,
          next_delay bo a rnd
            = Delay (table_entry bo (Z.min a (retry_ms_table_count bo - 1)) + j)
          /\ (jitter_percent bo = 0 -> j = 0)
          /\ (0 <= table_entry bo (delay_index bo a) ->
              0 <= jitter_percent bo ->
              0 <= j <= table_entry bo (delay_index bo a)
                        * jitter_percent bo / 100))
  /\ (forall (bo : lws_retry_bo_t) (a rnd : Z),
      0 <= a < retry_ms_table_count bo ->
      jitter_percent bo = 0 ->
      next_delay bo a rnd <> Exhausted ->
      next_delay bo a rnd = Delay (nth (Z.to_nat a) (retry_ms_table bo) 0))
  /\ (forall a rnd : Z,
      (0 <= a < 5 ->
       next_delay retry a rnd = Delay (nth (Z.to_nat a) backoff_ms 0))
      /\ (5 <= a -> next_delay retry a rnd = Exhausted))
  /\ (forall (P : platform) (w : world) (e1 e2 e3 e4 e5 e6 : event),
      Forall is_failure [e1; e2; e3; e4; e5; e6] ->
      retry_count (mco w) = 0 ->
      exists w1 w2 w3 w4 w5 w6,
        run_trace P [e1; e2; e3; e4; e5; e6] w = [w1; w2; w3; w4; w5; w6]
        /\ map (fun x => sul (mco x)) [w1; w2; w3; w4; w5]
           = map (fun ms => Some (Cb_connect_client, ms * LWS_US_PER_MS))
                 [1000; 2000; 3000; 4000; 5000]
        /\ map interrupted [w1; w2; w3; w4; w5]
           = map (fun _ => interrupted w) backoff_ms
        /\ interrupted w6 = 1
        /\ exhaustion_logged w6).
Proof.
  assert (G : forall (bo : lws_retry_bo_t) (a rnd : Z),
             next_delay bo a rnd <> Exhausted ->
             next_delay bo a rnd
             = Delay (table_entry bo (delay_index bo a)
                      + jitter bo (table_entry bo (delay_index bo a)) rnd)).
  { intros bo a rnd Hne. unfold next_delay in *.
    destruct ((conceal_count bo <=? retry_ms_table_count bo)
              && (conceal_count bo <=? a)); [congruence | reflexivity]. }
  split.
  { intros bo a rnd Ha Hne. split; [reflexivity|].
    exists (jitter bo (table_entry bo (delay_index bo a)) rnd).
    split; [apply G, Hne|]. unfold jitter. split.
    - intros ->. reflexivity.
    - intros Hd Hpc. destruct (Z.ltb_spec 0 (jitter_percent bo)) as [Hj|Hj].
      + assert (0 <= table_entry bo (delay_index bo a)
                     * jitter_percent bo / 100)
          by (apply Z.div_pos; nia).
        pose proof (Z.mod_pos_bound rnd
                      (table_entry bo (delay_index bo a)
                       * jitter_percent bo / 100 + 1)).
        lia.
      + split; [lia|]. apply Z.div_le_lower_bound; nia. }
  split.
  { intros bo a rnd Ha Hj Hne. rewrite (G _ _ _ Hne).
    unfold jitter, table_entry, delay_index. rewrite Hj.
    rewrite Z.min_l by lia. cbn. rewrite Z.add_0_r. reflexivity. }
  split.
  { intros a rnd. split.
    - apply next_delay_retry_delay.
    - apply next_delay_retry_exhausted. }
  intros P w e1 e2 e3 e4 e5 e6 HF H0. apply six_failures; assumption.
Qed.

(** ** Field extraction *)

Lemma is_prefix_spec (m s : list ascii) :
  is_prefix m s = true <-> exists post, s = m ++ post.
Proof.
  revert s. induction m as [|a m IH]; intros s; cbn [is_prefix].
  - split; [intros _; exists s; reflexivity | reflexivity].
  - destruct s as [|b s].
    + split; [discriminate | intros [post H]; discriminate H].
    + rewrite andb_true_iff, IH. split.
      * intros [Hab [post ->]]. apply Ascii.eqb_eq in Hab. subst b.
        exists post. reflexivity.
      * intros [post H]. injection H as -> ->. split.
        -- apply Ascii.eqb_refl.
        -- exists post. reflexivity.
Qed.

(** [after_marker] finds the marker exactly when the buffer contains it. *)
Lemma after_marker_none (buf m : list ascii) :
  after_marker buf m = None <-> ~ contains buf m.
Proof.
  induction buf as [|c t IH].
  - cbn [after_marker]. destruct (is_prefix m []) eqn:Hp.
    + split; [discriminate|]. intros Hn. exfalso. apply Hn.
      apply is_prefix_spec in Hp. destruct Hp as [post Hp].
      exists [], post. exact Hp.
    + split; [|reflexivity]. intros _ (pre & post & H).
      destruct pre as [|x pre]; [|discriminate H].
      assert (Ht : is_prefix m [] = true)
        by (apply is_prefix_spec; exists post; exact H).
      congruence.
  - cbn [after_marker]. destruct (is_prefix m (c :: t)) eqn:Hp.
    + split; [discriminate|]. intros Hn. exfalso. apply Hn.
      apply is_prefix_spec in Hp. destruct Hp as [post Hp].
      exists [], post. exact Hp.
    + rewrite IH. split.
      * intros Hn (pre & post & H). destruct pre as [|x pre].
        -- assert (Ht : is_prefix m (c :: t) = true)
             by (apply is_prefix_spec; exists post; exact H).
           congruence.
        -- injection H as _ H. apply Hn. exists pre, post. exact H.
      * intros Hn (pre & post & H). apply Hn.
        exists (c :: pre), post. rewrite H. reflexivity.
Qed.

Lemma find_none (buf m : list ascii) :
  ~ contains buf m -> lws_json_simple_find buf m = None.
Proof.
  intros H. apply after_marker_none in H.
  unfold lws_json_simple_find. rewrite H. reflexivity.
Qed.

Lemma find_some (buf m : list ascii) :
  contains buf m ->
  exists p, lws_json_simple_find buf m = Some (p, run_length p).
Proof.
  intros H. unfold lws_json_simple_find.
  destruct (after_marker buf m) as [p|] eqn:Ha.
  - exists p. reflexivity.
  - apply after_marker_none in Ha. contradiction.
Qed.

(** ** Connection established *)

(** C5: what [LWS_CALLBACK_CLIENT_ESTABLISHED] does.  It arms the 1Hz
    summary one second ahead (and [sul_hz_cb] arms it again each time it
    runs), records the wsi and resets both ranges to the empty state; it
    does not touch [retry_count].  After one connection error followed by a
    successful connection, [retry_count] is still 1 once the connection is
    established, not 0. *)
Theorem established_keeps_retry_count :
  (forall (P : platform) (h : Z) (inp : option (list ascii)) (w : world),
      let w' := snd (callback_minimal P h LWS_CALLBACK_CLIENT_ESTABLISHED inp w) in
      retry_count (mco w') = retry_count (mco w)
      /\ e_lat_range (mco w') = empty_range
      /\ price_range (mco w') = empty_range
      /\ sul_hz (mco w') = Some (Cb_sul_hz_cb, LWS_US_PER_SEC)
      /\ wsi (mco w') = Some h
      /\ exists w'', sul_hz_cb P w' = Some w''
           /\ sul_hz (mco w'') = Some (Cb_sul_hz_cb, LWS_US_PER_SEC))
  /\ (exists w',
        run_events sample_platform
          [Ev_callback 1 LWS_CALLBACK_CLIENT_CONNECTION_ERROR None;
           Ev_sul (Some 1);
           Ev_callback 1 LWS_CALLBACK_CLIENT_ESTABLISHED None]
          main_start = Some w'
        /\ retry_count (mco w') = 1
        /\ retry_count (mco w') <> 0).
Proof.
  split.
  - intros P h inp w. cbv zeta.
    do 5 (split; [reflexivity|]).
    rewrite sul_hz_cb_result. eexists. split; reflexivity.
  - eexists. split; [vm_compute; reflexivity|].
    split; [reflexivity | discriminate].
Qed.

(** ** The tick *)

(** C6: [sul_hz_cb] always completes; it logs the price line exactly when
    the price range has samples and the latency line exactly when the
    latency range has samples, each independently of the other; the quotient
    [sum / samples] is taken only for a non-zero [samples] (a zero divisor
    would have no result); and it leaves both ranges in the empty state and
    the summary armed one second ahead, whatever was logged. *)
Theorem tick_summary (P : platform) (w : world) :
  exists w',
    sul_hz_cb P w = Some w'
    /\ log w'
       = log w ++ report_price (usec_signed P) (price_range (mco w))
               ++ report_elatency (usec_signed P) (e_lat_range (mco w))
    /\ (samples (price_range (mco w)) = 0 <->
        report_price (usec_signed P) (price_range (mco w)) = [])
    /\ (samples (e_lat_range (mco w)) = 0 <->
        report_elatency (usec_signed P) (e_lat_range (mco w)) = [])
    /\ (forall a : Z, usec_div (usec_signed P) a 0 = None)
    /\ e_lat_range (mco w') = empty_range
    /\ price_range (mco w') = empty_range
    /\ sul_hz (mco w') = Some (Cb_sul_hz_cb, LWS_US_PER_SEC)
    /\ retry_count (mco w') = retry_count (mco w)
    /\ interrupted w' = interrupted w.
Proof.
  eexists. split; [apply sul_hz_cb_result|].
  split; [reflexivity|].
  split.
  { unfold report_price.
    destruct (Z.eqb_spec (samples (price_range (mco w))) 0) as [H0|H0].
    - split; [reflexivity | intros _; exact H0].
    - split; [contradiction | discriminate]. }
  split.
  { unfold report_elatency.
    destruct (Z.eqb_spec (samples (e_lat_range (mco w))) 0) as [H0|H0].
    - split; [reflexivity | intros _; exact H0].
    - split; [contradiction | discriminate]. }
  split; [intros a; reflexivity|].
  repeat split.
Qed.

(** ** [lws_usec_t] arithmetic depends on residues modulo [2^64] only *)

Lemma usec_congr (sg : bool) (x y : Z) :
  x mod 2 ^ 64 = y mod 2 ^ 64 -> usec sg x = usec sg y.
Proof.
  intros H. destruct sg; cbn [usec]; [|exact H].
  unfold Int.s64. f_equal.
  rewrite (Zplus_mod x), H, <- Zplus_mod. reflexivity.
Qed.

Lemma usec_mod (sg : bool) (x : Z) : usec sg x mod 2 ^ 64 = x mod 2 ^ 64.
Proof.
  destruct sg; cbn [usec].
  - apply IntFacts.u64_s64.
  - apply IntFacts.u64_idem.
Qed.

Lemma usec_mul_l (sg : bool) (a b : Z) : usec sg (usec sg a * b) = usec sg (a * b).
Proof.
  apply usec_congr.
  rewrite Zmult_mod, usec_mod, <- Zmult_mod. reflexivity.
Qed.

Lemma usec_sub_r (sg : bool) (a b : Z) : usec sg (a - usec sg b) = usec sg (a - b).
Proof.
  apply usec_congr.
  rewrite Zminus_mod, usec_mod, <- Zminus_mod. reflexivity.
Qed.

Lemma usec_sub_l (sg : bool) (a b : Z) : usec sg (usec sg a - b) = usec sg (a - b).
Proof.
  apply usec_congr.
  rewrite Zminus_mod, usec_mod, <- Zminus_mod. reflexivity.
Qed.

(** ** The text buffer keeps [atoll] in range *)

Lemma digit_run_bound (s : list ascii) (acc : Z) :
  0 <= acc ->
  0 <= digit_run acc s < (acc + 1) * 10 ^ Z.of_nat (List.length s).
Proof.
  revert acc. induction s as [|c t IH]; intros acc Hacc; cbn [digit_run].
  - cbn. lia.
  - change (List.length (c :: t)) with (S (List.length t)).
    rewrite Nat2Z.inj_succ, Z.pow_succ_r by lia.
    assert (Hp : 0 < 10 ^ Z.of_nat (List.length t))
      by (apply Z.pow_pos_nonneg; lia).
    destruct (isdigit c) eqn:Hd.
    + unfold isdigit in Hd. apply andb_prop in Hd. destruct Hd as [H1 H2].
      apply Z.leb_le in H1, H2.
      specialize (IH (10 * acc + (char_code c - 48))).
      assert (H0 : 0 <= 10 * acc + (char_code c - 48)) by lia.
      specialize (IH H0). nia.
    + nia.
Qed.

Lemma skip_spaces_length (s : list ascii) :
  (List.length (skip_spaces s) <= List.length s)%nat.
Proof.
  induction s as [|c t IH]; cbn [skip_spaces].
  - apply Nat.le_refl.
  - destruct (isspace c); cbn [List.length]; lia.
Qed.

Lemma atoll_bound (s : list ascii) :
  - 10 ^ Z.of_nat (List.length s) < atoll s < 10 ^ Z.of_nat (List.length s).
Proof.
  unfold atoll. pose proof (skip_spaces_length s) as Hl.
  assert (Hm : forall n : nat, (n <= List.length s)%nat ->
               10 ^ Z.of_nat n <= 10 ^ Z.of_nat (List.length s))
    by (intros n Hn; apply Z.pow_le_mono_r; lia).
  destruct (skip_spaces s) as [|c t].
  - assert (0 < 10 ^ Z.of_nat (List.length s)) by (apply Z.pow_pos_nonneg; lia).
    lia.
  - cbn [List.length] in Hl.
    pose proof (digit_run_bound t 0 (Z.le_refl 0)) as Bt.
    pose proof (digit_run_bound (c :: t) 0 (Z.le_refl 0)) as Bc.
    pose proof (Hm (List.length t) ltac:(lia)) as Mt.
    pose proof (Hm (List.length (c :: t)) Hl) as Mc.
    destruct (Ascii.eqb c "-"%char); [lia|].
    destruct (Ascii.eqb c "+"%char); lia.
Qed.

Lemma c_str_length (b : list ascii) : (List.length (c_str b) <= List.length b)%nat.
Proof.
  induction b as [|c t IH]; cbn [c_str].
  - apply Nat.le_refl.
  - destruct (Ascii.eqb c NUL); cbn [List.length]; lia.
Qed.

(** Every number parsed from [numbuf] fits a [long long] with room to spare:
    the buffer holds at most 15 characters. *)
Lemma atoll_numbuf_bound (p : list ascii) (alen : nat) :
  - 10 ^ 15 < atoll (lws_strnncpy p alen numbuf_size) < 10 ^ 15.
Proof.
  pose proof (atoll_bound (lws_strnncpy p alen numbuf_size)) as B.
  assert (L : (List.length (lws_strnncpy p alen numbuf_size) <= 15)%nat).
  { unfold lws_strnncpy, numbuf_size.
    pose proof (c_str_length (firstn (Nat.min alen (16 - 1)) p)).
    pose proof (firstn_le_length (Nat.min alen (16 - 1)) p).
    rewrite length_firstn in *. lia. }
  assert (10 ^ Z.of_nat (List.length (lws_strnncpy p alen numbuf_size))
          <= 10 ^ 15)
    by (apply Z.pow_le_mono_r; lia).
  lia.
Qed.

(** ** Message received *)

(** The reading of [gettimeofday] as microseconds in [lws_usec_t]. *)
Lemma now_us_value (P : platform) (w : world) :
  usec (usec_signed P) (fst (get_us_timeofday P w))
  = usec (usec_signed P)
         (tv_sec (gettimeofday P (clock_calls w)) * LWS_US_PER_SEC
          + tv_usec (gettimeofday P (clock_calls w))).
Proof.
  unfold get_us_timeofday. cbn [fst].
  rewrite usec_u64, usec_idem, usec_mul_l, usec_add_l. reflexivity.
Qed.

Lemma latency_of_value (sg : bool) (now : Z) (numbuf : list ascii) :
  latency_of sg (usec sg now) numbuf
  = usec sg (now - atoll numbuf * LWS_US_PER_MS).
Proof.
  unfold latency_of. rewrite usec_mul_l, usec_sub_r, usec_sub_l. reflexivity.
Qed.

(** A message without one of the first two markers changes nothing but the
    count of clock readings and, when only the second is missing, the log. *)
Lemma on_receive_skip (P : platform) (buf : list ascii) (w : world) :
  lws_json_simple_find buf marker_depthUpdate = None
  \/ lws_json_simple_find buf marker_E = None ->
  mco (on_receive P buf w) = mco w
  /\ (log (on_receive P buf w) = log w
      \/ log (on_receive P buf w) = log w ++ [Err_no_E_JSON]).
Proof.
  unfold on_receive, get_us_timeofday.
  destruct (lws_json_simple_find buf marker_depthUpdate) as [d|].
  - intros [H|H]; [discriminate|]. rewrite H. cbn.
    split; [reflexivity | right; reflexivity].
  - intros _. cbn. split; [reflexivity | left; reflexivity].
Qed.

(** A message with the first two markers folds its latency, and folds a
    price exactly when the third marker is found. *)
Lemma on_receive_fold (P : platform) (buf : list ascii) (w : world)
    (d : list ascii * nat) (p : list ascii) (alen : nat) :
  lws_json_simple_find buf marker_depthUpdate = Some d ->
  lws_json_simple_find buf marker_E = Some (p, alen) ->
  e_lat_range (mco (on_receive P buf w))
  = range_fold (usec_signed P) (e_lat_range (mco w))
      (latency_of (usec_signed P)
         (usec (usec_signed P) (fst (get_us_timeofday P w)))
         (lws_strnncpy p alen numbuf_size))
  /\ price_range (mco (on_receive P buf w))
     = match lws_json_simple_find buf marker_a with
       | None => price_range (mco w)
       | Some (q, qlen) =>
           range_fold (usec_signed P) (price_range (mco w))
             (usec (usec_signed P) (pennies (lws_strnncpy q qlen numbuf_size)))
       end
  /\ log (on_receive P buf w) = log w.
Proof.
  intros Hd HE. unfold on_receive.
  destruct (get_us_timeofday P w) as [now w1] eqn:Hnow.
  assert (Hw1 : mco w1 = mco w /\ log w1 = log w).
  { unfold get_us_timeofday in Hnow. injection Hnow as _ <-.
    split; reflexivity. }
  destruct Hw1 as [Hm Hl].
  rewrite Hd, HE. cbn [fst].
  destruct (lws_json_simple_find buf marker_a) as [[q qlen]|];
    cbn; rewrite Hm, Hl; repeat split.
Qed.

(** C7: a received message that does not contain the depthUpdate marker, or
    contains it but not the E marker, leaves the whole connection object,
    and so both ranges, unchanged; the callback returns 0 and leaves
    [interrupted] alone; at most the diagnostic line about the missing E is
    logged; and any events that follow are processed. *)
Theorem unmarked_message_folds_nothing
    (P : platform) (h : Z) (buf : list ascii) (w : world) :
  ~ contains buf marker_depthUpdate \/ ~ contains buf marker_E ->
  let r := fst (callback_minimal P h LWS_CALLBACK_CLIENT_RECEIVE (Some buf) w) in
  let w' := snd (callback_minimal P h LWS_CALLBACK_CLIENT_RECEIVE (Some buf) w) in
  r = 0
  /\ e_lat_range (mco w') = e_lat_range (mco w)
  /\ price_range (mco w') = price_range (mco w)
  /\ mco w' = mco w
  /\ interrupted w' = interrupted w
  /\ (log w' = log w \/ log w' = log w ++ [Err_no_E_JSON])
  /\ (~ contains buf marker_depthUpdate -> log w' = log w)
  /\ dispatch P (Ev_callback h LWS_CALLBACK_CLIENT_RECEIVE (Some buf)) w = Some w'
  /\ forall es : list event, exists w'', run_events P es w' = Some w''.
Proof.
  intros H r w'. unfold r, w'. cbn [callback_minimal fst snd].
  assert (Hf : lws_json_simple_find buf marker_depthUpdate = None
               \/ lws_json_simple_find buf marker_E = None).
  { destruct H as [H|H]; [left | right]; apply find_none, H. }
  destruct (on_receive_skip P buf w Hf) as [Hm Hl].
  destruct (on_receive_frame P buf w) as (Hi & _).
  split; [reflexivity|].
  rewrite Hm. do 3 (split; [reflexivity|]).
  split; [exact Hi|]. split; [exact Hl|].
  split.
  { intros Hn. unfold on_receive, get_us_timeofday.
    rewrite (find_none _ _ Hn). reflexivity. }
  split; [reflexivity|].
  intros es. apply run_events_total.
Qed.

(** Witness of [unmarked_message_folds_nothing]: a book ticker message,
    which has no depthUpdate marker. *)
Lemma unmarked_message_folds_nothing_witness :
  mco (snd (callback_minimal sample_platform 1 LWS_CALLBACK_CLIENT_RECEIVE
              (Some (json "{'e':'bookTicker','b':'9100.10'}"))
              established_world))
  = mco established_world.
Proof.
  apply (unmarked_message_folds_nothing sample_platform 1
           (json "{'e':'bookTicker','b':'9100.10'}") established_world).
  left. apply after_marker_none. vm_compute. reflexivity.
Defined.

Lemma after_marker_contains (buf m p : list ascii) :
  after_marker buf m = Some p -> contains buf m.
Proof.
  induction buf as [|c t IH]; cbn [after_marker].
  - destruct (is_prefix m []) eqn:Hp; [|discriminate].
    intros _. apply is_prefix_spec in Hp. destruct Hp as [post Hp].
    exists [], post. exact Hp.
  - destruct (is_prefix m (c :: t)) eqn:Hp.
    + intros _. apply is_prefix_spec in Hp. destruct Hp as [post Hp].
      exists [], post. exact Hp.
    + intros H. destruct (IH H) as (pre & post & ->).
      exists (c :: pre), post. reflexivity.
Qed.

(** C8: for a message with the depthUpdate and E markers the clock is read
    exactly once, and the value folded into the latency range is
    [now - E * 1000] in the 64-bit arithmetic of [lws_usec_t], where [now]
    is that one reading in microseconds and [E] is the number read from the
    text after the E marker: it is congruent to [now - E * 1000] modulo
    [2^64], equal to it when it is representable (also when negative, for a
    signed [lws_usec_t]), and wrapped rather than clamped to zero when
    [lws_usec_t] is unsigned. *)
Theorem latency_is_now_minus_E
    (P : platform) (h : Z) (buf : list ascii) (w : world) :
  contains buf marker_depthUpdate ->
  contains buf marker_E ->
  exists p : list ascii,
    lws_json_simple_find buf marker_E = Some (p, run_length p)
    /\ let sg := usec_signed P in
       let tv := gettimeofday P (clock_calls w) in
       let now := tv_sec tv * LWS_US_PER_SEC + tv_usec tv in
       let E := atoll (lws_strnncpy p (run_length p) numbuf_size) in
       let w' := snd (callback_minimal P h LWS_CALLBACK_CLIENT_RECEIVE
                        (Some buf) w) in
       let lat := usec sg (now - E * 1000) in
       e_lat_range (mco w') = range_fold sg (e_lat_range (mco w)) lat
       /\ sum (e_lat_range (mco w')) = usec sg (sum (e_lat_range (mco w)) + lat)
       /\ clock_calls w' = S (clock_calls w)
       /\ lat mod 2 ^ 64 = (now - E * 1000) mod 2 ^ 64
       /\ (sg = true -> - 2 ^ 63 <= now - E * 1000 < 2 ^ 63 ->
           lat = now - E * 1000)
       /\ (sg = false -> 0 <= now - E * 1000 < 2 ^ 64 ->
           lat = now - E * 1000)
       /\ (sg = false -> - 2 ^ 64 <= now - E * 1000 < 0 ->
           lat = now - E * 1000 + 2 ^ 64)
       /\ - 10 ^ 15 < E < 10 ^ 15.
Proof.
  intros Hd HE.
  destruct (find_some _ _ Hd) as [d Hfd].
  destruct (find_some _ _ HE) as [p Hfp].
  exists p. split; [exact Hfp|]. cbv zeta.
  cbn [callback_minimal snd].
  destruct (on_receive_fold P buf w _ _ _ Hfd Hfp) as (Hfold & _ & _).
  destruct (on_receive_frame P buf w) as (_ & Hclock & _).
  rewrite now_us_value, latency_of_value in Hfold.
  change LWS_US_PER_MS with 1000 in Hfold.
  split; [exact Hfold|].
  split; [rewrite Hfold; reflexivity|].
  split; [exact Hclock|].
  split; [apply usec_mod|].
  split.
  { intros -> Hr. apply IntFacts.s64_small. exact Hr. }
  split.
  { intros -> Hr. apply IntFacts.u64_small. exact Hr. }
  split.
  { intros -> Hr. cbn [usec]. unfold Int.u64.
    symmetry. apply Z.mod_unique with (q := -1); [left|]; lia. }
  apply atoll_numbuf_bound.
Qed.

(** Witness of [latency_is_now_minus_E]: a depth update stamped 100 ms
    before the clock reading folds a latency of 100000 microseconds. *)
Lemma latency_is_now_minus_E_witness :
  e_lat_range
    (mco (snd (callback_minimal sample_platform 1 LWS_CALLBACK_CLIENT_RECEIVE
                 (Some (json "{'e':'depthUpdate','E':1699999999900,'a':[['42000.55','1']]}"))
                 established_world)))
  = range_fold false empty_range 100000.
Proof.
  destruct (latency_is_now_minus_E sample_platform 1
              (json "{'e':'depthUpdate','E':1699999999900,'a':[['42000.55','1']]}")
              established_world) as (p & Hp & Hf & _).
  - eapply after_marker_contains. vm_compute. reflexivity.
  - eapply after_marker_contains. vm_compute. reflexivity.
  - cbv zeta in Hf. rewrite Hf.
    vm_compute in Hp. injection Hp as <-. vm_compute. reflexivity.
Defined.

(** C10: a message that contains the depthUpdate and E markers but not the
    price marker folds exactly one value into the latency range and leaves
    the price range as it was; so two sample counts that were equal before
    the message differ after it. *)
Theorem latency_only_message
    (P : platform) (h : Z) (buf : list ascii) (w : world) :
  contains buf marker_depthUpdate ->
  contains buf marker_E ->
  ~ contains buf marker_a ->
  let w' := snd (callback_minimal P h LWS_CALLBACK_CLIENT_RECEIVE (Some buf) w) in
  (exists lat : Z,
      e_lat_range (mco w')
      = range_fold (usec_signed P) (e_lat_range (mco w)) lat)
  /\ samples (e_lat_range (mco w')) = Int.s32 (samples (e_lat_range (mco w)) + 1)
  /\ price_range (mco w') = price_range (mco w)
  /\ (0 <= samples (e_lat_range (mco w)) < Int.INT_MAX ->
      samples (e_lat_range (mco w')) = samples (e_lat_range (mco w)) + 1
      /\ (samples (price_range (mco w)) = samples (e_lat_range (mco w)) ->
          samples (price_range (mco w')) <> samples (e_lat_range (mco w')))).
Proof.
  intros Hd HE Ha w'. unfold w'. cbn [callback_minimal snd].
  destruct (find_some _ _ Hd) as [d Hfd].
  destruct (find_some _ _ HE) as [p Hfp].
  destruct (on_receive_fold P buf w _ _ _ Hfd Hfp) as (Hfold & Hprice & _).
  rewrite (find_none _ _ Ha) in Hprice.
  split; [eexists; exact Hfold|].
  split; [rewrite Hfold; reflexivity|].
  split; [exact Hprice|].
  intros Hs.
  assert (Hn : samples (e_lat_range (mco (on_receive P buf w)))
               = samples (e_lat_range (mco w)) + 1).
  { rewrite Hfold. cbn [range_fold samples].
    apply IntFacts.s32_small. unfold Int.INT_MAX in *. lia. }
  split; [exact Hn|].
  intros Heq. rewrite Hprice, Hn. lia.
Qed.

(** Witness of [latency_only_message]: after a depth update without asks,
    received on a fresh connection, the latency range has one sample and the
    price range has none. *)
Lemma latency_only_message_witness :
  let w' := snd (callback_minimal sample_platform 1 LWS_CALLBACK_CLIENT_RECEIVE
                   (Some (json "{'e':'depthUpdate','E':1699999999900,'b':[]}"))
                   established_world) in
  samples (e_lat_range (mco w')) = 1 /\ samples (price_range (mco w')) = 0.
Proof.
  destruct (latency_only_message sample_platform 1
              (json "{'e':'depthUpdate','E':1699999999900,'b':[]}")
              established_world) as (_ & Hs & Hp & _).
  - eapply after_marker_contains. vm_compute. reflexivity.
  - eapply after_marker_contains. vm_compute. reflexivity.
  - apply after_marker_none. vm_compute. reflexivity.
  - cbv zeta. rewrite Hs, Hp. split; vm_compute; reflexivity.
Defined.

(** * Further properties of the code *)

(** ** Ranges: order of arrival, and the average *)

Lemma range_t_ext (r1 r2 : range_t) :
  sum r1 = sum r2 -> lowest r1 = lowest r2 -> highest r1 = highest r2 ->
  samples r1 = samples r2 -> r1 = r2.
Proof.
  destruct r1, r2. cbn. intros -> -> -> ->. reflexivity.
Qed.

Lemma range_fold_swap (sg : bool) (r : range_t) (a b : Z) :
  range_fold sg (range_fold sg r a) b = range_fold sg (range_fold sg r b) a.
Proof.
  apply range_t_ext.
  - cbn [range_fold sum]. rewrite !usec_add_l. f_equal. lia.
  - rewrite !range_fold_lowest. lia.
  - rewrite !range_fold_highest. lia.
  - reflexivity.
Qed.

(** X1: the state of a range does not depend on the order in which the
    values of a window arrive. *)
Theorem range_fold_all_permutation (sg : bool) (r : range_t) (vs vs' : list Z) :
  Permutation vs vs' ->
  range_fold_all sg r vs = range_fold_all sg r vs'.
Proof.
  intros Hp. revert r.
  induction Hp as [|x l l' Hp IH|x y l|l l' l'' H1 IH1 H2 IH2]; intros r.
  - reflexivity.
  - unfold range_fold_all in *. cbn [fold_left]. apply IH.
  - unfold range_fold_all. cbn [fold_left]. rewrite range_fold_swap.
    reflexivity.
  - rewrite IH1. apply IH2.
Qed.

(** Witness of [range_fold_all_permutation]: two values swapped. *)
Lemma range_fold_all_permutation_witness :
  range_fold_all false empty_range [200000; 100000; 150000]
  = range_fold_all false empty_range [100000; 200000; 150000].
Proof.
  apply (range_fold_all_permutation false empty_range
           [200000; 100000; 150000] [100000; 200000; 150000]).
  apply perm_swap.
Defined.

Lemma list_sum_lower (vs : list Z) (m : Z) :
  Forall (fun v => m <= v) vs -> m * Z.of_nat (List.length vs) <= list_sum vs.
Proof.
  induction vs as [|v t IH]; intros H.
  - cbn. lia.
  - inversion H; subst. rewrite list_sum_cons.
    change (List.length (v :: t)) with (S (List.length t)).
    rewrite Nat2Z.inj_succ. specialize (IH H3). lia.
Qed.

Lemma list_sum_upper (vs : list Z) (m : Z) :
  Forall (fun v => v <= m) vs -> list_sum vs <= m * Z.of_nat (List.length vs).
Proof.
  induction vs as [|v t IH]; intros H.
  - cbn. lia.
  - inversion H; subst. rewrite list_sum_cons.
    change (List.length (v :: t)) with (S (List.length t)).
    rewrite Nat2Z.inj_succ. specialize (IH H3). lia.
Qed.

(** X2: for a window of non-negative values whose sum does not overflow,
    the average that the tick reports lies between the reported minimum and
    maximum. *)
Theorem mean_between_lowest_and_highest
    (sg : bool) (r0 : range_t) (vs : list Z) :
  vs <> [] ->
  Forall (fun v => 0 <= v) vs ->
  list_sum vs < 2 ^ 63 ->
  Z.of_nat (List.length vs) <= Int.INT_MAX ->
  let r := range_fold_all sg (range_reset r0) vs in
  lowest r <= mean sg r <= highest r.
Proof.
  intros Hne Hpos Hsum Hlen r.
  assert (Hn : 0 < Z.of_nat (List.length vs))
    by (destruct vs; [congruence | cbn [List.length]; lia]).
  assert (Hs0 : 0 <= list_sum vs).
  { pose proof (list_sum_lower vs 0 Hpos). lia. }
  assert (Hsr : sum r = list_sum vs).
  { unfold r. rewrite range_fold_all_sum.
    - cbn [range_reset sum]. rewrite Z.add_0_l. apply usec_small. lia.
    - cbn [range_reset sum]. destruct sg; reflexivity. }
  assert (Hnr : samples r = Z.of_nat (List.length vs)).
  { unfold r. rewrite range_fold_all_samples by reflexivity.
    cbn [range_reset samples]. rewrite Z.add_0_l.
    apply IntFacts.s32_small. lia. }
  assert (Hmean : mean sg r = list_sum vs / Z.of_nat (List.length vs)).
  { unfold mean. rewrite Hsr, Hnr. destruct sg.
    - rewrite Z.quot_div_nonneg by lia.
      apply IntFacts.s64_small.
      assert (list_sum vs / Z.of_nat (List.length vs) <= list_sum vs)
        by (apply Z.div_le_upper_bound; nia).
      assert (0 <= list_sum vs / Z.of_nat (List.length vs))
        by (apply Z.div_pos; lia).
      lia.
    - rewrite IntFacts.u64_small; [reflexivity|].
      unfold Int.INT_MAX in Hlen. lia. }
  assert (Hlo : Forall (fun v => lowest r <= v) vs).
  { unfold r. rewrite range_fold_all_lowest. apply list_min_lower_bound. }
  assert (Hhi : Forall (fun v => v <= highest r) vs).
  { unfold r. rewrite range_fold_all_highest. apply list_max_upper_bound. }
  apply list_sum_lower in Hlo. apply list_sum_upper in Hhi.
  rewrite Hmean. split.
  - apply Z.div_le_lower_bound; lia.
  - apply Z.div_le_upper_bound; lia.
Qed.

(** Witness of [mean_between_lowest_and_highest]: three latencies. *)
Lemma mean_between_lowest_and_highest_witness :
  let r := range_fold_all false (range_reset zero_range)
             [100000; 200000; 150000] in
  lowest r <= mean false r <= highest r.
Proof.
  apply (mean_between_lowest_and_highest false zero_range
           [100000; 200000; 150000]).
  - discriminate.
  - repeat constructor; vm_compute; discriminate.
  - vm_compute. reflexivity.
  - vm_compute. discriminate.
Defined.

(** ** [pennies]: what is read of the fraction *)

Lemma digit_is_not_point (c : ascii) :
  isdigit c = true -> Ascii.eqb c "."%char = false.
Proof.
  intros H. destruct (Ascii.eqb_spec c "."%char) as [->|]; [|reflexivity].
  vm_compute in H. discriminate H.
Qed.

Lemma digit_run_stops (ds t : list ascii) (c : ascii) (acc : Z) :
  all_digits ds -> isdigit c = false ->
  digit_run acc (ds ++ c :: t) = digit_run acc ds.
Proof.
  unfold all_digits. revert acc.
  induction ds as [|d ds IH]; intros acc Hds Hc; cbn [app digit_run forallb] in *.
  - rewrite Hc. reflexivity.
  - apply andb_prop in Hds. destruct Hds as [Hd Hds].
    rewrite Hd. apply IH; assumption.
Qed.

Lemma after_first_point_digits (ds rest : list ascii) :
  all_digits ds -> after_first_point (ds ++ "."%char :: rest) = Some rest.
Proof.
  unfold all_digits.
  induction ds as [|d ds IH]; intros Hds; cbn [app after_first_point forallb] in *.
  - reflexivity.
  - apply andb_prop in Hds. destruct Hds as [Hd Hds].
    rewrite (digit_is_not_point d Hd). apply IH, Hds.
Qed.

Lemma after_first_point_none (ds : list ascii) :
  all_digits ds -> after_first_point ds = None.
Proof.
  unfold all_digits.
  induction ds as [|d ds IH]; intros Hds; cbn [after_first_point forallb] in *.
  - reflexivity.
  - apply andb_prop in Hds. destruct Hds as [Hd Hds].
    rewrite (digit_is_not_point d Hd). apply IH, Hds.
Qed.

Lemma atoll_digits_then_point (ds rest : list ascii) :
  all_digits ds -> atoll (ds ++ "."%char :: rest) = digit_run 0 ds.
Proof.
  intros Hds. rewrite atoll_numeric_text.
  - unfold leading_integer_run. apply digit_run_stops; [exact Hds | reflexivity].
  - destruct ds as [|d ds]; cbn [app numeric_text].
    + right. reflexivity.
    + left. unfold all_digits in Hds. cbn [forallb] in Hds.
      apply andb_prop in Hds. apply Hds.
Qed.

Lemma atoll_digits (ds : list ascii) : all_digits ds -> atoll ds = digit_run 0 ds.
Proof.
  intros Hds. destruct ds as [|d ds]; [reflexivity|].
  apply atoll_numeric_text. cbn [numeric_text]. left.
  unfold all_digits in Hds. cbn [forallb] in Hds.
  apply andb_prop in Hds. apply Hds.
Qed.

(** X3: [pennies] truncates to cents: of a text made of digits, a point and
    at least two digits it reads the integer and the first two fractional
    digits, and whatever follows them has no influence on the result. *)
Theorem pennies_truncates_to_cents (ds rest : list ascii) (d1 d2 : ascii) :
  all_digits ds ->
  isdigit d1 = true ->
  isdigit d2 = true ->
  pennies (ds ++ "."%char :: d1 :: d2 :: rest)
  = Int.u64 (digit_run 0 ds * 100
             + (10 * (char_code d1 - 48) + (char_code d2 - 48)))
  /\ pennies (ds ++ "."%char :: d1 :: d2 :: rest)
     = pennies (ds ++ "."%char :: d1 :: d2 :: []).
Proof.
  intros Hds H1 H2.
  assert (G : forall t,
             pennies (ds ++ "."%char :: d1 :: d2 :: t)
             = Int.u64 (digit_run 0 ds * 100
                        + (10 * (char_code d1 - 48) + (char_code d2 - 48)))).
  { intros t. rewrite pennies_eq, atoll_digits_then_point by exact Hds.
    unfold fractional_part. rewrite after_first_point_digits by exact Hds.
    rewrite H1, H2. reflexivity. }
  split; [apply G|]. rewrite (G rest), (G []). reflexivity.
Qed.

(** Witness of [pennies_truncates_to_cents]: 42000.559 is read as 4200055. *)
Lemma pennies_truncates_to_cents_witness :
  pennies (chars "42000.559") = pennies (chars "42000.55").
Proof.
  apply (pennies_truncates_to_cents (chars "42000") (chars "9") "5" "5");
    reflexivity.
Defined.

(** X4: when the point is not followed by two digits (nothing, one digit,
    or a non-digit among the next two characters), [pennies] reads the text
    as the whole number before the point: the lone fractional digit of a
    text like 12.5 is dropped. *)
Theorem pennies_drops_short_fraction (ds rest : list ascii) :
  all_digits ds ->
  isdigit (char_at rest 0) && isdigit (char_at rest 1) = false ->
  pennies (ds ++ "."%char :: rest) = Int.u64 (digit_run 0 ds * 100)
  /\ pennies (ds ++ "."%char :: rest) = pennies ds.
Proof.
  intros Hds Hshort.
  assert (G : pennies (ds ++ "."%char :: rest) = Int.u64 (digit_run 0 ds * 100)).
  { rewrite pennies_eq, atoll_digits_then_point by exact Hds.
    unfold fractional_part. rewrite after_first_point_digits by exact Hds.
    destruct rest as [|c1 [|c2 t]]; try (rewrite Z.add_0_r; reflexivity).
    unfold char_at in Hshort. cbn [nth] in Hshort. rewrite Hshort.
    rewrite Z.add_0_r. reflexivity. }
  split; [exact G|]. rewrite G, pennies_eq, atoll_digits by exact Hds.
  unfold fractional_part. rewrite after_first_point_none by exact Hds.
  rewrite Z.add_0_r. reflexivity.
Qed.

(** Witness of [pennies_drops_short_fraction]: 12.5 is read as 1200. *)
Lemma pennies_drops_short_fraction_witness :
  pennies (chars "12.5") = Int.u64 (digit_run 0 (chars "12") * 100).
Proof.
  apply (pennies_drops_short_fraction (chars "12") (chars "5")); reflexivity.
Defined.

(** X5: a price text taken from a message fills at most 15 characters of
    [numbuf], so when it is not negative [pennies] computes it without any
    wrap-around: the result is the integer times 100 plus the fraction, is
    below [10^17], and is the same number as an [lws_usec_t]. *)
Theorem numbuf_price_is_exact (sg : bool) (p : list ascii) (alen : nat) :
  0 <= atoll (lws_strnncpy p alen numbuf_size) ->
  let numbuf := lws_strnncpy p alen numbuf_size in
  pennies numbuf = atoll numbuf * 100 + fractional_part numbuf
  /\ 0 <= pennies numbuf < 10 ^ 17
  /\ usec sg (pennies numbuf) = pennies numbuf.
Proof.
  intros Hpos numbuf. fold numbuf in Hpos.
  pose proof (atoll_numbuf_bound p alen) as B. fold numbuf in B.
  pose proof (fractional_part_range numbuf) as F.
  assert (E : pennies numbuf = atoll numbuf * 100 + fractional_part numbuf).
  { rewrite pennies_eq. apply IntFacts.u64_small. lia. }
  split; [exact E|]. split; [lia|].
  apply usec_small. lia.
Qed.

(** Witness of [numbuf_price_is_exact]: the text 42000.55 cut out of a
    message. *)
Lemma numbuf_price_is_exact_witness :
  pennies (lws_strnncpy (chars "42000.55x,y") 8 numbuf_size) = 4200055.
Proof.
  destruct (numbuf_price_is_exact false (chars "42000.55x,y") 8) as (E & _).
  - vm_compute. discriminate.
  - cbv zeta in E. rewrite E. vm_compute. reflexivity.
Defined.

(** ** Handlers: what each may change *)

Lemma retry_schedule_keeps (P : platform) (bo : lws_retry_bo_t)
    (cb : sul_cb_t) (w : world) :
  let w' := snd (lws_retry_sul_schedule P bo cb w) in
  sul_hz (mco w') = sul_hz (mco w)
  /\ wsi (mco w') = wsi (mco w)
  /\ e_lat_range (mco w') = e_lat_range (mco w)
  /\ price_range (mco w') = price_range (mco w)
  /\ clock_calls w' = clock_calls w
  /\ interrupted w' = interrupted w
  /\ log w' = log w.
Proof.
  unfold lws_retry_sul_schedule.
  destruct (next_delay bo (retry_count (mco w))
              (lws_get_random P (random_calls w)));
    destruct (0 <? jitter_percent bo); cbn; repeat split.
Qed.

Lemma do_retry_keeps (P : platform) (w : world) :
  let w' := snd (do_retry P w) in
  sul_hz (mco w') = sul_hz (mco w)
  /\ wsi (mco w') = wsi (mco w)
  /\ e_lat_range (mco w') = e_lat_range (mco w)
  /\ price_range (mco w') = price_range (mco w)
  /\ clock_calls w' = clock_calls w.
Proof.
  unfold do_retry, lws_retry_sul_schedule_retry_wsi.
  pose proof (retry_schedule_keeps P retry Cb_connect_client w) as K.
  destruct (lws_retry_sul_schedule P retry Cb_connect_client w) as [r w1].
  cbn [snd] in K. destruct K as (K1 & K2 & K3 & K4 & K5 & _).
  destruct (r =? 0); cbn; repeat split; assumption.
Qed.

Lemma connect_client_keeps (P : platform) (conn : option Z) (w : world) :
  let w' := connect_client P conn w in
  sul_hz (mco w') = sul_hz (mco w)
  /\ wsi (mco w') = conn
  /\ e_lat_range (mco w') = e_lat_range (mco w)
  /\ price_range (mco w') = price_range (mco w)
  /\ clock_calls w' = clock_calls w.
Proof.
  unfold connect_client. destruct conn as [c|]; [cbn; repeat split|].
  pose proof (retry_schedule_keeps P retry Cb_connect_client
                (set_mco w (set_wsi (mco w) None))) as K.
  destruct (lws_retry_sul_schedule P retry Cb_connect_client
              (set_mco w (set_wsi (mco w) None))) as [r w1].
  cbn [snd] in K. destruct K as (K1 & K2 & K3 & K4 & K5 & _).
  cbn in K1, K2, K3, K4, K5.
  destruct (r =? 0); cbn; repeat split; assumption.
Qed.

(** X6: a message with the depthUpdate, E and price markers folds exactly
    one value into each range: the latency [now - E * 1000] and the price in
    pennies read from the text after the price marker; nothing is logged. *)
Theorem full_message_folds_both
    (P : platform) (h : Z) (buf : list ascii) (w : world) :
  contains buf marker_depthUpdate ->
  contains buf marker_E ->
  contains buf marker_a ->
  exists p q : list ascii,
    lws_json_simple_find buf marker_E = Some (p, run_length p)
    /\ lws_json_simple_find buf marker_a = Some (q, run_length q)
    /\ let sg := usec_signed P in
       let tv := gettimeofday P (clock_calls w) in
       let w' := snd (callback_minimal P h LWS_CALLBACK_CLIENT_RECEIVE
                        (Some buf) w) in
       e_lat_range (mco w')
       = range_fold sg (e_lat_range (mco w))
           (usec sg (tv_sec tv * LWS_US_PER_SEC + tv_usec tv
                     - atoll (lws_strnncpy p (run_length p) numbuf_size)
                       * LWS_US_PER_MS))
       /\ price_range (mco w')
          = range_fold sg (price_range (mco w))
              (usec sg (pennies (lws_strnncpy q (run_length q) numbuf_size)))
       /\ log w' = log w.
Proof.
  intros Hd HE Ha.
  destruct (find_some _ _ Hd) as [d Hfd].
  destruct (find_some _ _ HE) as [p Hfp].
  destruct (find_some _ _ Ha) as [q Hfq].
  exists p, q. split; [exact Hfp|]. split; [exact Hfq|].
  cbv zeta. cbn [callback_minimal snd].
  destruct (on_receive_fold P buf w _ _ _ Hfd Hfp) as (Hl & Hp & Hlog).
  rewrite now_us_value, latency_of_value in Hl.
  rewrite Hfq in Hp.
  split; [exact Hl|]. split; [exact Hp | exact Hlog].
Qed.

(** Witness of [full_message_folds_both]: a depth update with one ask folds
    the price 4200055. *)
Lemma full_message_folds_both_witness :
  price_range
    (mco (snd (callback_minimal sample_platform 1 LWS_CALLBACK_CLIENT_RECEIVE
                 (Some (json "{'e':'depthUpdate','E':1699999999900,'a':[['42000.55','1']]}"))
                 established_world)))
  = range_fold false empty_range 4200055.
Proof.
  destruct (full_message_folds_both sample_platform 1
              (json "{'e':'depthUpdate','E':1699999999900,'a':[['42000.55','1']]}")
              established_world) as (p & q & Hp & Hq & _ & Hf & _).
  - eapply after_marker_contains. vm_compute. reflexivity.
  - eapply after_marker_contains. vm_compute. reflexivity.
  - eapply after_marker_contains. vm_compute. reflexivity.
  - rewrite Hf. vm_compute in Hq. injection Hq as <-. vm_compute. reflexivity.
Defined.

(** X7: whatever a received message contains, handling it changes nothing
    but the two ranges, the clock reading count and the log: [interrupted],
    both timers, the wsi, [retry_count] and the random source are left
    alone, the callback returns 0, and the log grows by at most the line
    about the missing E. *)
Theorem received_message_touches_only_ranges
    (P : platform) (h : Z) (inp : option (list ascii)) (w : world) :
  let r := fst (callback_minimal P h LWS_CALLBACK_CLIENT_RECEIVE inp w) in
  let w' := snd (callback_minimal P h LWS_CALLBACK_CLIENT_RECEIVE inp w) in
  r = 0
  /\ interrupted w' = interrupted w
  /\ sul (mco w') = sul (mco w)
  /\ sul_hz (mco w') = sul_hz (mco w)
  /\ wsi (mco w') = wsi (mco w)
  /\ retry_count (mco w') = retry_count (mco w)
  /\ random_calls w' = random_calls w
  /\ (log w' = log w \/ log w' = log w ++ [Err_no_E_JSON]).
Proof.
  cbv zeta. cbn [callback_minimal fst snd].
  destruct (on_receive_frame P (match inp with Some b => b | None => [] end) w)
    as (Hi & _ & Hr & Hs & Hz & Hw & Hc & Hl).
  repeat split; assumption.
Qed.

(** X8: a connection error or a closed connection leaves the 1Hz summary
    timer, the stored wsi and both ranges as they were: the summary stays
    armed and the window keeps its samples across the loss of the
    connection. *)
Theorem lost_connection_keeps_summary_armed
    (P : platform) (h : Z) (inp : option (list ascii)) (w : world) :
  Forall (fun w' =>
            sul_hz (mco w') = sul_hz (mco w)
            /\ wsi (mco w') = wsi (mco w)
            /\ e_lat_range (mco w') = e_lat_range (mco w)
            /\ price_range (mco w') = price_range (mco w))
         [snd (callback_minimal P h LWS_CALLBACK_CLIENT_CONNECTION_ERROR inp w);
          snd (callback_minimal P h LWS_CALLBACK_CLIENT_CLOSED inp w)].
Proof.
  cbn [callback_minimal].
  destruct (do_retry_keeps P (lwsl w (Err_connection_error inp)))
    as (A1 & A2 & A3 & A4 & _).
  destruct (do_retry_keeps P w) as (B1 & B2 & B3 & B4 & _).
  repeat constructor; assumption.
Qed.

(** ** Runs of events *)

Lemma dispatch_clock (P : platform) (e : event) (w : world) :
  exists w', dispatch P e w = Some w'
    /\ clock_calls w'
       = if is_receive e then S (clock_calls w) else clock_calls w.
Proof.
  destruct e as [conn| |h reason inp|]; cbn [dispatch is_receive].
  - eexists. split; [reflexivity|].
    destruct (connect_client_keeps P conn (set_mco w (set_sul (mco w) None)))
      as (_ & _ & _ & _ & K). exact K.
  - eexists. split; [apply sul_hz_cb_result | reflexivity].
  - eexists. split; [reflexivity|].
    destruct reason; cbn [callback_minimal snd].
    + destruct (do_retry_keeps P (lwsl w (Err_connection_error inp)))
        as (_ & _ & _ & _ & K). exact K.
    + destruct (on_receive_frame P
                  (match inp with Some b => b | None => [] end) w)
        as (_ & K & _). exact K.
    + reflexivity.
    + destruct (do_retry_keeps P w) as (_ & _ & _ & _ & K). exact K.
    + reflexivity.
  - eexists. split; reflexivity.
Qed.

(** X9: along any run of events the clock is read exactly once for each
    received message, whether the message is then used or skipped, and by
    nothing else. *)
Theorem clock_read_once_per_message
    (P : platform) (es : list event) (w : world) :
  exists w', run_events P es w = Some w'
    /\ clock_calls w' = (clock_calls w + count_receive es)%nat.
Proof.
  revert w. induction es as [|e t IH]; intros w; cbn [run_events].
  - exists w. split; [reflexivity|]. cbn. lia.
  - destruct (dispatch_clock P e w) as (w1 & -> & Hc).
    destruct (IH w1) as (w' & Hr & Hc').
    exists w'. split; [exact Hr|]. rewrite Hc', Hc.
    unfold count_receive. cbn [filter].
    destruct (is_receive e); cbn [List.length]; lia.
Qed.

(** X10: [interrupted] is never cleared: once it is set, it stays set
    through any events, SIGINT included. *)
Theorem interrupted_is_never_cleared
    (P : platform) (es : list event) (w : world) :
  interrupted w = 1 ->
  exists w', run_events P es w = Some w' /\ interrupted w' = 1.
Proof.
  revert w. induction es as [|e t IH]; intros w Hi; cbn [run_events].
  - exists w. split; [reflexivity | exact Hi].
  - assert (H1 : exists w1, dispatch P e w = Some w1 /\ interrupted w1 = 1).
    { destruct e as [conn| |h reason inp|].
      - assert (He : Ev_sul conn <> Ev_sigint) by discriminate.
        destruct (dispatch_cases P _ w He) as (w1 & Hd & [(Hk & _) | (Hk & _)]);
          exists w1; split; congruence.
      - assert (He : Ev_sul_hz <> Ev_sigint) by discriminate.
        destruct (dispatch_cases P _ w He) as (w1 & Hd & [(Hk & _) | (Hk & _)]);
          exists w1; split; congruence.
      - assert (He : Ev_callback h reason inp <> Ev_sigint) by discriminate.
        destruct (dispatch_cases P _ w He) as (w1 & Hd & [(Hk & _) | (Hk & _)]);
          exists w1; split; congruence.
      - eexists. split; reflexivity. }
    destruct H1 as (w1 & -> & Hi1). apply IH, Hi1.
Qed.

(** Witness of [interrupted_is_never_cleared]: after a SIGINT, a new
    connection and a tick leave [interrupted] set. *)
Lemma interrupted_is_never_cleared_witness :
  exists w',
    run_events sample_platform
      [Ev_callback 1 LWS_CALLBACK_CLIENT_ESTABLISHED None; Ev_sul_hz]
      (sigint_handler main_start) = Some w'
    /\ interrupted w' = 1.
Proof.
  apply (interrupted_is_never_cleared sample_platform
           [Ev_callback 1 LWS_CALLBACK_CLIENT_ESTABLISHED None; Ev_sul_hz]
           (sigint_handler main_start)).
  reflexivity.
Defined.

(** X11: only the failure events (a connection attempt that fails at once,
    a connection error, a closed connection) can change [retry_count], and
    only they and SIGINT can set [interrupted]: every other event leaves
    both as they were. *)
Theorem only_failures_touch_retry_state
    (P : platform) (e : event) (w : world) :
  ~ is_failure e ->
  exists w', dispatch P e w = Some w'
    /\ retry_count (mco w') = retry_count (mco w)
    /\ random_calls w' = random_calls w
    /\ (e <> Ev_sigint -> interrupted w' = interrupted w).
Proof.
  intros Hnf.
  destruct e as [[c|]| |h reason inp|]; cbn [dispatch].
  - eexists. split; [reflexivity|]. cbn. repeat split.
  - exfalso. apply Hnf. exact I.
  - eexists. split; [apply sul_hz_cb_result|]. cbn. repeat split.
  - destruct reason; try (exfalso; apply Hnf; exact I).
    + eexists. split; [reflexivity|]. cbn [callback_minimal snd].
      destruct (on_receive_frame P
                  (match inp with Some b => b | None => [] end) w)
        as (Hi & _ & Hr & _ & _ & _ & Hc & _).
      split; [exact Hc|]. split; [exact Hr|]. intros _. exact Hi.
    + eexists. split; [reflexivity|]. cbn. repeat split.
    + eexists. split; [reflexivity|]. cbn. repeat split.
  - eexists. split; [reflexivity|]. cbn. repeat split. congruence.
Qed.

(** Witness of [only_failures_touch_retry_state]: a tick. *)
Lemma only_failures_touch_retry_state_witness :
  exists w', dispatch sample_platform Ev_sul_hz established_world = Some w'
    /\ retry_count (mco w') = retry_count (mco established_world)
    /\ random_calls w' = random_calls established_world
    /\ (Ev_sul_hz <> Ev_sigint -> interrupted w' = interrupted established_world).
Proof.
  apply (only_failures_touch_retry_state sample_platform Ev_sul_hz
           established_world).
  simpl. intros H. exact H.
Defined.

(** ** Sample counts *)

Lemma on_receive_samples (P : platform) (buf : list ascii) (w : world) :
  let sl := samples (e_lat_range (mco w)) in
  let sp := samples (price_range (mco w)) in
  let sl' := samples (e_lat_range (mco (on_receive P buf w))) in
  let sp' := samples (price_range (mco (on_receive P buf w))) in
  (sl' = sl /\ sp' = sp)
  \/ (sl' = Int.s32 (sl + 1) /\ (sp' = sp \/ sp' = Int.s32 (sp + 1))).
Proof.
  unfold on_receive, get_us_timeofday.
  destruct (lws_json_simple_find buf marker_depthUpdate) as [d|];
    [|left; split; reflexivity].
  destruct (lws_json_simple_find buf marker_E) as [[p alen]|];
    [|left; split; reflexivity].
  destruct (lws_json_simple_find buf marker_a) as [[q qlen]|]; cbn.
  - right. split; [reflexivity | right; reflexivity].
  - right. split; [reflexivity | left; reflexivity].
Qed.

Lemma dispatch_samples (P : platform) (e : event) (w : world) (k : Z) :
  0 <= samples (price_range (mco w)) <= samples (e_lat_range (mco w)) ->
  samples (e_lat_range (mco w)) <= k ->
  k < Int.INT_MAX ->
  exists w', dispatch P e w = Some w'
    /\ 0 <= samples (price_range (mco w')) <= samples (e_lat_range (mco w'))
    /\ samples (e_lat_range (mco w')) <= k + 1.
Proof.
  intros H0 Hk Hmax. unfold Int.INT_MAX in Hmax.
  destruct e as [conn| |h reason inp|]; cbn [dispatch].
  - eexists. split; [reflexivity|].
    destruct (connect_client_keeps P conn (set_mco w (set_sul (mco w) None)))
      as (_ & _ & K1 & K2 & _). cbn in K1, K2. rewrite K1, K2. lia.
  - eexists. split; [apply sul_hz_cb_result|]. cbn. lia.
  - eexists. split; [reflexivity|].
    destruct reason; cbn [callback_minimal snd].
    + destruct (do_retry_keeps P (lwsl w (Err_connection_error inp)))
        as (_ & _ & K1 & K2 & _). cbn in K1, K2. rewrite K1, K2. lia.
    + destruct (on_receive_samples P
                  (match inp with Some b => b | None => [] end) w)
        as [(E1 & E2) | (E1 & E2)]; cbv zeta in E1, E2.
      * rewrite E1, E2. lia.
      * rewrite E1.
        rewrite (IntFacts.s32_small (samples (e_lat_range (mco w)) + 1))
          by (unfold Int.INT_MAX; lia).
        destruct E2 as [E2 | E2]; rewrite E2.
        -- lia.
        -- rewrite IntFacts.s32_small by (unfold Int.INT_MAX; lia). lia.
    + cbn. lia.
    + destruct (do_retry_keeps P w) as (_ & _ & K1 & K2 & _).
      rewrite K1, K2. lia.
    + cbn. lia.
  - eexists. split; [reflexivity|]. cbn. lia.
Qed.

(** X12: within a window the price range never has more samples than the
    latency range: along any run of events that cannot overflow the [int]
    counters, [0 <= price samples <= latency samples] is kept, and the
    latency count grows by at most one per event. *)
Theorem price_samples_at_most_latency_samples
    (P : platform) (es : list event) (w : world) (k : Z) :
  0 <= samples (price_range (mco w)) <= samples (e_lat_range (mco w)) ->
  samples (e_lat_range (mco w)) <= k ->
  k + Z.of_nat (List.length es) <= Int.INT_MAX ->
  exists w', run_events P es w = Some w'
    /\ 0 <= samples (price_range (mco w')) <= samples (e_lat_range (mco w'))
    /\ samples (e_lat_range (mco w')) <= k + Z.of_nat (List.length es).
Proof.
  revert w k. induction es as [|e t IH]; intros w k H0 Hk Hlen;
    cbn [run_events].
  - exists w. split; [reflexivity|]. cbn. lia.
  - change (List.length (e :: t)) with (S (List.length t)) in *.
    rewrite Nat2Z.inj_succ in *.
    destruct (dispatch_samples P e w k H0 Hk) as (w1 & -> & H1 & Hk1); [lia|].
    destruct (IH w1 (k + 1) H1 Hk1) as (w' & Hr & H' & Hk'); [lia|].
    exists w'. split; [exact Hr|]. split; [exact H'|]. lia.
Qed.

(** Witness of [price_samples_at_most_latency_samples]: a depth update
    without asks and one with an ask, from the start of the program. *)
Lemma price_samples_at_most_latency_samples_witness :
  exists w',
    run_events sample_platform
      [Ev_callback 1 LWS_CALLBACK_CLIENT_RECEIVE
         (Some (json "{'e':'depthUpdate','E':1699999999900,'b':[]}"));
       Ev_callback 1 LWS_CALLBACK_CLIENT_RECEIVE
         (Some (json "{'e':'depthUpdate','E':1699999999900,'a':[['42000.55','1']]}"))]
      main_start = Some w'
    /\ 0 <= samples (price_range (mco w')) <= samples (e_lat_range (mco w'))
    /\ samples (e_lat_range (mco w')) <= 0 + 2.
Proof.
  apply (price_samples_at_most_latency_samples sample_platform
           [Ev_callback 1 LWS_CALLBACK_CLIENT_RECEIVE
              (Some (json "{'e':'depthUpdate','E':1699999999900,'b':[]}"));
            Ev_callback 1 LWS_CALLBACK_CLIENT_RECEIVE
              (Some (json "{'e':'depthUpdate','E':1699999999900,'a':[['42000.55','1']]}"))]
           main_start 0).
  - vm_compute. split; discriminate.
  - vm_compute. discriminate.
  - vm_compute. discriminate.
Defined.

(** ** The clock *)

(** X13: for clock readings of a running system [get_us_timeofday] returns
    exactly [tv_sec * 1000000 + tv_usec], with no wrap-around, as a
    [uint64_t] and as an [lws_usec_t] alike, and it preserves the order of
    the readings. *)
Theorem get_us_timeofday_is_exact_and_monotone
    (P : platform) (w1 w2 : world) :
  sane_clock (gettimeofday P (clock_calls w1)) ->
  sane_clock (gettimeofday P (clock_calls w2)) ->
  timeval_le (gettimeofday P (clock_calls w1))
             (gettimeofday P (clock_calls w2)) ->
  fst (get_us_timeofday P w1)
  = tv_sec (gettimeofday P (clock_calls w1)) * 1000000
    + tv_usec (gettimeofday P (clock_calls w1))
  /\ usec (usec_signed P) (fst (get_us_timeofday P w1))
     = fst (get_us_timeofday P w1)
  /\ fst (get_us_timeofday P w1) <= fst (get_us_timeofday P w2).
Proof.
  assert (G : forall w, sane_clock (gettimeofday P (clock_calls w)) ->
              fst (get_us_timeofday P w)
              = tv_sec (gettimeofday P (clock_calls w)) * 1000000
                + tv_usec (gettimeofday P (clock_calls w))
              /\ 0 <= fst (get_us_timeofday P w) < 2 ^ 63).
  { intros w [Hs Hu]. unfold get_us_timeofday. cbn [fst].
    change LWS_US_PER_SEC with 1000000.
    change (2 ^ 43) with 8796093022208 in Hs.
    rewrite (usec_small _ (tv_sec _)) by lia.
    rewrite (usec_small _ (tv_sec _ * 1000000)) by lia.
    rewrite usec_small by lia.
    rewrite IntFacts.u64_small by lia.
    split; [reflexivity | lia]. }
  intros S1 S2 Hle.
  destruct (G w1 S1) as [E1 R1]. destruct (G w2 S2) as [E2 R2].
  split; [exact E1|]. split; [apply usec_small; exact R1|].
  rewrite E1, E2. destruct S1 as [_ U1]. destruct S2 as [_ U2].
  destruct Hle as [Hlt | [Heq Hu]]; lia.
Qed.

(** Witness of [get_us_timeofday_is_exact_and_monotone]: the clock of the
    sample platform. *)
Lemma get_us_timeofday_is_exact_and_monotone_witness :
  fst (get_us_timeofday sample_platform main_start) = 1700000000000000.
Proof.
  destruct (get_us_timeofday_is_exact_and_monotone sample_platform
              main_start main_start) as (E & _).
  - split; vm_compute; split; discriminate || reflexivity.
  - split; vm_compute; split; discriminate || reflexivity.
  - right. split; [reflexivity|]. vm_compute. discriminate.
  - rewrite E. reflexivity.
Defined.

(** ** Idle windows *)

(** X14: a tick that follows a tick, or the establishment of the
    connection, with no message in between logs nothing and leaves the state
    as it found it: summary lines appear only for windows with samples. *)
Theorem idle_tick_is_silent (P : platform) (h : Z)
    (inp : option (list ascii)) (w : world) :
  (exists w1, sul_hz_cb P w = Some w1 /\ sul_hz_cb P w1 = Some w1)
  /\ (let we := snd (callback_minimal P h LWS_CALLBACK_CLIENT_ESTABLISHED inp w) in
      sul_hz_cb P we = Some we).
Proof.
  assert (G : forall x : world,
             e_lat_range (mco x) = empty_range ->
             price_range (mco x) = empty_range ->
             sul_hz (mco x) = Some (Cb_sul_hz_cb, LWS_US_PER_SEC) ->
             sul_hz_cb P x = Some x).
  { intros x He Hp Hz. rewrite sul_hz_cb_result, He, Hp.
    unfold report_price, report_elatency. cbn [empty_range samples Z.eqb app].
    rewrite app_nil_r. destruct x as [m i c r l]. destruct m as [s z e p wh rc].
    cbn in *. subst. reflexivity. }
  split.
  - eexists. split; [apply sul_hz_cb_result|]. apply G; reflexivity.
  - cbv zeta. apply G; reflexivity.
Qed.

(** ** The retry budget *)

Lemma dispatch_retry_count (P : platform) (e : event) (w : world) :
  0 <= retry_count (mco w) <= 5 ->
  exists w', dispatch P e w = Some w'
    /\ retry_count (mco w) <= retry_count (mco w') <= 5.
Proof.
  intros Hrc.
  assert (F : forall e0 : event, is_failure e0 ->
              exists w', dispatch P e0 w = Some w'
                /\ retry_count (mco w) <= retry_count (mco w') <= 5).
  { intros e0 Hf. destruct (Z_lt_le_dec (retry_count (mco w)) 5) as [Hlt|Hge].
    - destruct (failure_step_delay P e0 w Hf) as (w' & Hd & _ & Hr & _); [lia|].
      exists w'. split; [exact Hd | lia].
    - destruct (failure_step_exhausted P e0 w Hf Hge) as (w' & Hd & _ & _ & Hr).
      exists w'. split; [exact Hd | lia]. }
  destruct e as [[c|]| |h reason inp|].
  - eexists. split; [reflexivity|]. cbn. lia.
  - apply F. exact I.
  - eexists. split; [apply sul_hz_cb_result|]. cbn. lia.
  - destruct reason; try (apply F; exact I).
    + eexists. split; [reflexivity|]. cbn [callback_minimal snd].
      destruct (on_receive_frame P
                  (match inp with Some b => b | None => [] end) w)
        as (_ & _ & _ & _ & _ & _ & Hc & _).
      rewrite Hc. lia.
    + eexists. split; [reflexivity|]. cbn. lia.
    + eexists. split; [reflexivity|]. cbn. lia.
  - eexists. split; [reflexivity|]. cbn. lia.
Qed.

(** X15: with the configured policy [retry_count] never decreases and never
    exceeds 5 along any run of events: nothing gives a retry back, not even
    a successful connection, so over its whole life the program schedules at
    most five retries. *)
Theorem retry_count_only_grows_up_to_five
    (P : platform) (es : list event) (w : world) :
  0 <= retry_count (mco w) <= 5 ->
  exists w', run_events P es w = Some w'
    /\ retry_count (mco w) <= retry_count (mco w') <= 5.
Proof.
  revert w. induction es as [|e t IH]; intros w Hrc; cbn [run_events].
  - exists w. split; [reflexivity | lia].
  - destruct (dispatch_retry_count P e w Hrc) as (w1 & -> & H1).
    destruct (IH w1) as (w' & Hr & H'); [lia|].
    exists w'. split; [exact Hr | lia].
Qed.

(** Witness of [retry_count_only_grows_up_to_five]: an error, a successful
    reconnection and a closed connection, from the start of the program. *)
Lemma retry_count_only_grows_up_to_five_witness :
  exists w',
    run_events sample_platform
      [Ev_callback 1 LWS_CALLBACK_CLIENT_CONNECTION_ERROR None;
       Ev_sul (Some 1);
       Ev_callback 1 LWS_CALLBACK_CLIENT_ESTABLISHED None;
       Ev_callback 1 LWS_CALLBACK_CLIENT_CLOSED None]
      main_start = Some w'
    /\ retry_count (mco main_start) <= retry_count (mco w') <= 5.
Proof.
  apply (retry_count_only_grows_up_to_five sample_platform
           [Ev_callback 1 LWS_CALLBACK_CLIENT_CONNECTION_ERROR None;
            Ev_sul (Some 1);
            Ev_callback 1 LWS_CALLBACK_CLIENT_ESTABLISHED None;
            Ev_callback 1 LWS_CALLBACK_CLIENT_CLOSED None]
           main_start).
  vm_compute. split; discriminate.
Defined.

(** ** The loop of [main] over successive rounds *)

